(** * The decode driver of vhs-decode ([vhsdecode/main.py])

    A shallow embedding of [main]: loading the samples, building the
    decoder with SIGINT masked, the field-by-field decode loop with its
    periodic JSON snapshots, and [cleanup].

    The decoder ([VHSDecode]), the sample loader, the logger and the JSON
    dump thread live in other modules; they appear here as an interface
    ([Externals]) whose operations are arbitrary functions.  Python objects
    that are mutated in place (the decoder) are passed as explicit state;
    the effects of the process itself (the SIGINT disposition, the calls it
    makes, exceptions and [exit]) run in the small monad [M]. *)

From Stdlib Require Import ZArith Lia PrimFloat Ascii.
From stdpp Require Import base numbers list strings gmap.

Local Open Scope Z_scope.

(** ** Python data *)

(** [str.upper], on the ASCII letters: exact on ASCII text, which is all
    that [main] applies it to once the parser has let the tape format
    through ([main_from_command_line]). *)
Definition ascii_upper (c : ascii) : ascii :=
  let n := Ascii.nat_of_ascii c in
  if ((97 <=? n) && (n <=? 122))%nat then Ascii.ascii_of_nat (n - 32) else c.

Fixpoint str_upper (s : string) : string :=
  match s with
  | EmptyString => EmptyString
  | String c s' => String (ascii_upper c) (str_upper s')
  end.

(** The values stored in the option dictionaries. *)
Inductive pyval :=
| PyNone
| PyBool (b : bool)
| PyInt (z : Z)
| PyFloat (x : float)
| PyStr (s : string).

Definition opt_float (o : option float) : pyval :=
  match o with Some x => PyFloat x | None => PyNone end.

Definition opt_int (o : option Z) : pyval :=
  match o with Some z => PyInt z | None => PyNone end.

(** Instances of [Exception]: [ValueError], and any other subclass. *)
Inductive exception :=
| ValueError (msg : string)
| RuntimeError (msg : string).

(** What can travel up the stack: [SystemExit] is what [exit(code)]
    raises; neither it nor [KeyboardInterrupt] is an [Exception]. *)
Inductive exn :=
| KeyboardInterrupt
| SystemExit (code : Z)
| Exc (err : exception).

(** What [readfield] may raise: an interrupt delivered while it runs, or
    a decode failure. *)
Inductive readfield_raise :=
| RaiseKeyboardInterrupt
| RaiseException (err : exception).

(** Dispositions of SIGINT as [signal.signal] takes and returns them. *)
Inductive handler :=
| SIG_DFL
| SIG_IGN
| default_int_handler
| PyHandler (id : nat).

(** ** Command line *)

(** The attributes of the parsed arguments that [main] reads.  [umatic]
    and [dodod] exist only when [use_gui] is false, where alone they are
    read. *)
Record Args := {
  dodod : bool;
  umatic : bool;
  tape_format : string;
  level_adjust : float;
  high_boost : option float;
  disable_diff_demod : bool;
  disable_dc_offset : bool;
  nldeemp : bool;
  cafc : bool;
  track_phase : option Z;
  recheck_phase : bool;
  disable_comb : bool;
  debug_plot : option string;
  sync_clip : bool;
  nodod : bool;
  dod_threshold_p : option float;
  dod_threshold_a : option float;
  dod_hysteresis : float;
  cxadc : bool;
  cxadc3 : bool;
  cxadc_tenbit : bool;
  cxadc3_tenbit : bool;
  threads : Z;
  start_fileloc : Z;
  ntscj : bool;
}.

(** The tuple [get_basics] returns. *)
Record basics := {
  filename : string;
  outname : string;
  firstframe : Z;
  req_frames : Z;
}.

Definition supported_tape_formats : gset string := {[ "VHS"; "SVHS"; "UMATIC" ]}.

(** The keyword arguments of the [VHSDecode] constructor. *)
Record VHSDecode_kwargs := {
  kw_system : string;
  kw_tape_format : string;
  kw_doDOD : bool;
  kw_threads : Z;
  kw_inputfreq : Z;
  kw_level_adjust : float;
  kw_rf_options : gmap string pyval;
  kw_extra_options : gmap string pyval;
  kw_debug_plot : option string;
}.

(** ** The collaborators *)

(** Everything [main] calls outside its own module.  [readfield] mutates
    the decoder whether it returns or raises, so it yields the decoder's
    next state in both cases; [build_json vhsd] stands for
    [vhsd.build_json(vhsd.curfield)]. *)
Record Externals (Loader Engine Field Json : Type) := {
  get_basics : Args -> basics;
  select_system : Args -> string;
  select_sample_freq : Args -> pyval;
  get_rf_options : Args -> gmap string pyval;
  get_extra_options : Args -> bool -> gmap string pyval;
  DEFAULT_THRESHOLD_P_DDD : float;
  DEFAULT_THRESHOLD_P_CXADC : float;
  make_loader : string -> pyval -> exception + Loader;
  VHSDecode : string -> string -> Loader -> VHSDecode_kwargs -> exception + Engine;
  roughseek : Z -> bool -> Engine -> Engine;
  set_blackIRE : float -> Engine -> Engine;
  fields_written : Engine -> Z;
  fdoffset : Engine -> Z;
  readfield : Engine -> (readfield_raise + option Field) * Engine;
  build_json : Engine -> Json;
  close : Engine -> Engine;
}.

Arguments get_basics {_ _ _ _} _ _.
Arguments select_system {_ _ _ _} _ _.
Arguments select_sample_freq {_ _ _ _} _ _.
Arguments get_rf_options {_ _ _ _} _ _.
Arguments get_extra_options {_ _ _ _} _ _ _.
Arguments DEFAULT_THRESHOLD_P_DDD {_ _ _ _} _.
Arguments DEFAULT_THRESHOLD_P_CXADC {_ _ _ _} _.
Arguments make_loader {_ _ _ _} _ _ _.
Arguments VHSDecode {_ _ _ _} _ _ _ _ _.
Arguments roughseek {_ _ _ _} _ _ _ _.
Arguments set_blackIRE {_ _ _ _} _ _ _.
Arguments fields_written {_ _ _ _} _ _.
Arguments fdoffset {_ _ _ _} _ _.
Arguments readfield {_ _ _ _} _ _.
Arguments build_json {_ _ _ _} _ _.
Arguments close {_ _ _ _} _ _.

(** ** Observable actions *)

Inductive stream := Stdout | Stderr.

(** The arguments of one [print] call. *)
Inductive print_item :=
| PStr (s : string)
| PInt (z : Z)
| PArgs (a : Args)
| PExc (e : exception).

(** The calls [main] makes, in the order it makes them.  [EvPut (Some j)]
    is [jsondumper.put(j)] and [EvPut None] is [jsondumper.put(None)], the
    message that stops the dump thread; [EvPrintTb] is
    [traceback.print_tb], which writes to the error stream. *)
Inductive event (Json : Type) :=
| EvMakeLoader (file : string) (sample_freq : pyval)
| EvSignal (h : handler)
| EvInitLogging (path : string)
| EvWarning (msg : string)
| EvDebugPlot (what : string)
| EvVHSDecode (kw : VHSDecode_kwargs)
| EvRoughseek (location : Z) (isField : bool)
| EvSetBlackIRE (x : float)
| EvJsondumpThread (out : string)
| EvReadfield
| EvPut (msg : option Json)
| EvClose
| EvPrint (to : stream) (items : list print_item)
| EvPrintTb (err : exception).

Arguments EvMakeLoader {_} _ _.
Arguments EvSignal {_} _.
Arguments EvInitLogging {_} _.
Arguments EvWarning {_} _.
Arguments EvDebugPlot {_} _.
Arguments EvVHSDecode {_} _.
Arguments EvRoughseek {_} _ _.
Arguments EvSetBlackIRE {_} _.
Arguments EvJsondumpThread {_} _.
Arguments EvReadfield {_}.
Arguments EvPut {_} _.
Arguments EvClose {_}.
Arguments EvPrint {_} _ _.
Arguments EvPrintTb {_} _.

(** ** The process monad *)

(** A computation ends by returning, by raising, or, for a loop cut off
    by its fuel, still running. *)
Inductive outcome (A : Type) :=
| Ret (a : A)
| Raise (e : exn)
| OutOfFuel.

Arguments Ret {_} _.
Arguments Raise {_} _.
Arguments OutOfFuel {_}.

(** State: the SIGINT disposition.  Output: the calls made, oldest first;
    they stay made when an exception unwinds. *)
Definition M (Json A : Type) : Type :=
  handler -> outcome A * handler * list (event Json).

Section Monad.
Context {Json : Type}.

Definition m_ret {A} (a : A) : M Json A := fun h => (Ret a, h, []).

Definition m_bind {A B} (f : A -> M Json B) (m : M Json A) : M Json B :=
  fun h =>
    match m h with
    | (Ret a, h', t) => let '(o, h'', t') := f a h' in (o, h'', t ++ t')
    | (Raise e, h', t) => (Raise e, h', t)
    | (OutOfFuel, h', t) => (OutOfFuel, h', t)
    end.

Definition raise {A} (e : exn) : M Json A := fun h => (Raise e, h, []).

Definition out_of_fuel {A} : M Json A := fun h => (OutOfFuel, h, []).

Definition emit (ev : event Json) : M Json unit := fun h => (Ret tt, h, [ev]).

(** [exit(code)] *)
Definition py_exit {A} (code : Z) : M Json A := raise (SystemExit code).

(** [signal.signal(signal.SIGINT, h)]: installs [h], returns the handler
    it replaces. *)
Definition signal_signal (h : handler) : M Json handler :=
  fun old => (Ret old, h, [EvSignal h]).

Definition print (to : stream) (items : list print_item) : M Json unit :=
  emit (EvPrint to items).

End Monad.

#[global] Instance M_ret {Json} : MRet (M Json) := @m_ret Json.
#[global] Instance M_bind {Json} : MBind (M Json) := @m_bind Json.

(** Unfolds the monad so that a run computes. *)
Ltac run :=
  unfold mbind, mret, M_bind, M_ret, m_bind, m_ret, print, emit, py_exit, raise,
    out_of_fuel, signal_signal; simpl.

(** ** [main] *)

(** The snapshot cadence of the decode loop:
    [fields_written < 100 or (fields_written % 500) == 0]. *)
Definition snapshot_due (fields_written : Z) : bool :=
  (fields_written <? 100) || (fields_written mod 500 =? 0).

Definition nl : string := String (Ascii.ascii_of_nat 10) EmptyString.

Definition unsupported_warning (tape_format : string) : string :=
  "Tape format " +:+ tape_format +:+ " not supported! Defaulting to VHS".

Definition dodod_warning : string :=
  "--doDOD is deprecated, dod is on by default, use noDOD to turn off.".

(** Truth value of [args.debug_plot]: set, and not the empty string. *)
Definition debug_plot_request (args : Args) : option string :=
  match debug_plot args with
  | Some EmptyString => None
  | other => other
  end.

Section Main.
Context {Loader Engine Field Json : Type}.
Context (ext : Externals Loader Engine Field Json).
Context (use_gui : bool) (args : Args).

(** Lines 180-184: a [ValueError] of the loader is printed and ends the
    process with status 1; any other exception is not caught. *)
Definition load_samples (file : string) (sample_freq : pyval) : M Json Loader :=
  emit (EvMakeLoader file sample_freq);;
  match make_loader ext file sample_freq with
  | inr loader => mret loader
  | inl (ValueError msg) =>
      print Stdout [PExc (ValueError msg)];;
      py_exit 1
  | inl err => raise (Exc err)
  end.

(** Lines 186-202. *)
Definition rf_options_of : gmap string pyval :=
  let dod_threshold_p :=
    if cxadc args || cxadc3 args || cxadc_tenbit args || cxadc3_tenbit args
    then DEFAULT_THRESHOLD_P_CXADC ext
    else DEFAULT_THRESHOLD_P_DDD ext in
  <["sync_clip" := PyBool (sync_clip args)]>
  (<["cafc" := PyBool (cafc args)]>
  (<["nldeemp" := PyBool (nldeemp args)]>
  (<["disable_comb" := PyBool (disable_comb args)]>
  (<["disable_dc_offset" := PyBool (disable_dc_offset args)]>
  (<["disable_diff_demod" := PyBool (disable_diff_demod args)]>
  (<["high_boost" := opt_float (high_boost args)]>
  (<["recheck_phase" := PyBool (recheck_phase args)]>
  (<["track_phase" := opt_int (track_phase args)]>
  (<["dod_hysteresis" := PyFloat (dod_hysteresis args)]>
  (<["dod_threshold_a" := opt_float (dod_threshold_a args)]>
  (<["dod_threshold_p" := PyFloat dod_threshold_p]>
  (get_rf_options ext args)))))))))))).

(** Lines 212-215. *)
Definition effective_tape_format : string :=
  if negb use_gui && umatic args then "UMATIC"
  else str_upper (tape_format args).

(** Lines 230-244: the keyword arguments the decoder is built with. *)
Definition decoder_kwargs (system : string) : VHSDecode_kwargs :=
  {| kw_system := system;
     kw_tape_format := effective_tape_format;
     kw_doDOD := negb (nodod args);
     kw_threads := threads args;
     kw_inputfreq := 40;
     kw_level_adjust := level_adjust args;
     kw_rf_options := rf_options_of;
     kw_extra_options := get_extra_options ext args (negb use_gui);
     kw_debug_plot := debug_plot_request args |}.

(** Lines 208-246: the decoder is built with SIGINT ignored; the handler
    found before is put back once the constructor has returned.  Nothing
    here catches what the constructor raises. *)
Definition build_decoder (b : basics) (system : string) (loader : Loader)
  : M Json Engine :=
  original_sigint_handler ← signal_signal SIG_IGN;
  emit (EvInitLogging (outname b +:+ ".log"));;
  (if bool_decide (effective_tape_format ∈ supported_tape_formats) then mret tt
   else emit (EvWarning (unsupported_warning effective_tape_format)));;
  (if negb use_gui && dodod args then emit (EvWarning dodod_warning)
   else mret tt);;
  match debug_plot_request args with
  | Some what => emit (EvDebugPlot what)
  | None => mret tt
  end;;
  emit (EvVHSDecode (decoder_kwargs system));;
  match VHSDecode ext (filename b) (outname b) loader (decoder_kwargs system) with
  | inl err => raise (Exc err)
  | inr vhsd =>
      signal_signal original_sigint_handler;;
      mret vhsd
  end.

(** Lines 248-255. *)
Definition position (b : basics) (system : string) (vhsd : Engine) : M Json Engine :=
  vhsd ← (if start_fileloc args =? -1
          then emit (EvRoughseek (firstframe b * 2) true);;
               mret (roughseek ext (firstframe b * 2) true vhsd)
          else emit (EvRoughseek (start_fileloc args) false);;
               mret (roughseek ext (start_fileloc args) false vhsd));
  if String.eqb system "NTSC" && negb (ntscj args)
  then emit (EvSetBlackIRE 7.5%float);; mret (set_blackIRE ext 7.5%float vhsd)
  else mret vhsd.

(** Lines 261-264. *)
Definition cleanup (vhsd : Engine) : M Json Engine :=
  emit (EvPut (Some (build_json ext vhsd)));;
  emit EvClose;;
  emit (EvPut None);;
  mret (close ext vhsd).

(** Lines 267-289: one pass through the body of the [while], with SIGINT
    arriving, if at all, while [readfield] runs, the one call the [try]
    covers.  [loop_body_at] follows it to the places outside the [try]. *)
Definition loop_body (done : bool) (vhsd : Engine) : M Json (bool * Engine) :=
  emit EvReadfield;;
  let '(r, vhsd) := readfield ext vhsd in
  match r with
  | inl RaiseKeyboardInterrupt =>
      print Stdout [PStr "Terminated, saving JSON and exiting"];;
      cleanup vhsd;;
      py_exit 1
  | inl (RaiseException err) =>
      print Stderr
        [PStr (nl +:+ "ERROR - please paste the following into a bug report:")];;
      print Stderr [PStr "current sample:"; PInt (fdoffset ext vhsd)];;
      print Stderr [PStr "arguments:"; PArgs args];;
      print Stderr [PStr "Exception:"; PExc err; PStr " Traceback:"];;
      emit (EvPrintTb err);;
      cleanup vhsd;;
      py_exit 1
  | inr f =>
      let done := match f with None => true | Some _ => done end in
      (if snapshot_due (fields_written ext vhsd)
       then emit (EvPut (Some (build_json ext vhsd)))
       else mret tt);;
      mret (done, vhsd)
  end.

(** Line 266: [while not done and vhsd.fields_written < (req_frames * 2)].
    [fuel] bounds the number of passes. *)
Fixpoint decode_loop (frames : Z) (fuel : nat) (done : bool) (vhsd : Engine)
  : M Json Engine :=
  if negb done && (fields_written ext vhsd <? frames * 2) then
    match fuel with
    | O => out_of_fuel
    | S fuel' =>
        '(done, vhsd) ← loop_body done vhsd;
        decode_loop frames fuel' done vhsd
    end
  else mret vhsd.

(** Lines 257-293: the dump thread is started, the loop runs, and the
    normal way out saves and exits with status 0. *)
Definition decode (b : basics) (fuel : nat) (vhsd : Engine) : M Json unit :=
  emit (EvJsondumpThread (outname b));;
  vhsd ← decode_loop (req_frames b) fuel false vhsd;
  print Stdout [PStr "saving JSON and exiting"];;
  cleanup vhsd;;
  py_exit 0.

Definition main (fuel : nat) : M Json unit :=
  let b := get_basics ext args in
  let system := select_system ext args in
  let sample_freq := select_sample_freq ext args in
  loader ← load_samples (filename b) sample_freq;
  vhsd ← build_decoder b system loader;
  vhsd ← position b system vhsd;
  decode b fuel vhsd.

End Main.

Arguments load_samples {_ _ _ _} _ _ _.
Arguments rf_options_of {_ _ _ _} _ _.
Arguments decoder_kwargs {_ _ _ _} _ _ _ _.
Arguments build_decoder {_ _ _ _} _ _ _ _ _ _.
Arguments position {_ _ _ _} _ _ _ _ _.
Arguments cleanup {_ _ _ _} _ _.
Arguments loop_body {_ _ _ _} _ _ _ _.
Arguments decode_loop {_ _ _ _} _ _ _ _ _ _.
Arguments decode {_ _ _ _} _ _ _ _ _.
Arguments main {_ _ _ _} _ _ _ _.

(** ** Reading a run *)

Section Runs.
Context {Loader Engine Field Json : Type}.
Context (ext : Externals Loader Engine Field Json).

Definition result_of {A} (r : outcome A * handler * list (event Json)) : outcome A :=
  r.1.1.

Definition sigint_of {A} (r : outcome A * handler * list (event Json)) : handler :=
  r.1.2.

Definition events_of {A} (r : outcome A * handler * list (event Json))
  : list (event Json) :=
  r.2.

(** The messages handed to the dump thread, in the order of the calls. *)
Fixpoint puts (evs : list (event Json)) : list (option Json) :=
  match evs with
  | [] => []
  | EvPut msg :: evs' => msg :: puts evs'
  | _ :: evs' => puts evs'
  end.

(** How many times the stop message was enqueued. *)
Fixpoint sentinels (evs : list (event Json)) : nat :=
  match evs with
  | [] => 0
  | EvPut None :: evs' => S (sentinels evs')
  | _ :: evs' => sentinels evs'
  end.

(** How many times the decoder was closed. *)
Fixpoint closes (evs : list (event Json)) : nat :=
  match evs with
  | [] => 0
  | EvClose :: evs' => S (closes evs')
  | _ :: evs' => closes evs'
  end.

(** How many times [readfield] was called. *)
Fixpoint reads (evs : list (event Json)) : nat :=
  match evs with
  | [] => 0
  | EvReadfield :: evs' => S (reads evs')
  | _ :: evs' => reads evs'
  end.

(** The stream each output call writes to. *)
Definition printed_to (ev : event Json) : option stream :=
  match ev with
  | EvPrint to _ => Some to
  | EvPrintTb _ => Some Stderr
  | _ => None
  end.

(** The three calls of [cleanup] on a decoder in state [vhsd]. *)
Definition finalization (vhsd : Engine) : list (event Json) :=
  [EvPut (Some (build_json ext vhsd)); EvClose; EvPut None].

(** What a pass that got a result from [readfield] enqueues. *)
Definition snapshot_events (vhsd : Engine) : list (event Json) :=
  if snapshot_due (fields_written ext vhsd)
  then [EvPut (Some (build_json ext vhsd))]
  else [].

(** The diagnostic of the [except Exception] branch, for a decoder left
    in state [vhsd]. *)
Definition diagnostic (args : Args) (vhsd : Engine) (err : exception)
  : list (event Json) :=
  [EvPrint Stderr
     [PStr (nl +:+ "ERROR - please paste the following into a bug report:")];
   EvPrint Stderr [PStr "current sample:"; PInt (fdoffset ext vhsd)];
   EvPrint Stderr [PStr "arguments:"; PArgs args];
   EvPrint Stderr [PStr "Exception:"; PExc err; PStr " Traceback:"];
   EvPrintTb err].

(** The three ways out of the decode loop, the status the process ends
    with on each, and the last thing the driver writes before [cleanup]. *)
Inductive way_out :=
| Completed
| UserInterrupt
| DecodeFailure (err : exception).

Definition exit_status (way : way_out) : Z :=
  match way with
  | Completed => 0
  | UserInterrupt => 1
  | DecodeFailure _ => 1
  end.

Definition announcement (way : way_out) : event Json :=
  match way with
  | Completed => EvPrint Stdout [PStr "saving JSON and exiting"]
  | UserInterrupt => EvPrint Stdout [PStr "Terminated, saving JSON and exiting"]
  | DecodeFailure err => EvPrintTb err
  end.

(** [k] passes of the loop in a row in each of which [readfield] hands
    back a field: the state they lead to and the calls they make. *)
Fixpoint passes (frames : Z) (k : nat) (vhsd : Engine)
  : option (Engine * list (event Json)) :=
  match k with
  | O => Some (vhsd, [])
  | S k' =>
      if fields_written ext vhsd <? frames * 2 then
        match readfield ext vhsd with
        | (inr (Some _), vhsd') =>
            match passes frames k' vhsd' with
            | Some (last, evs) =>
                Some (last, EvReadfield :: snapshot_events vhsd' ++ evs)
            | None => None
            end
        | _ => None
        end
      else None
  end.

(** The SIGINT disposition left by the [signal.signal] calls of [evs],
    starting from [h]. *)
Fixpoint disposition (h : handler) (evs : list (event Json)) : handler :=
  match evs with
  | [] => h
  | EvSignal h' :: evs' => disposition h' evs'
  | _ :: evs' => disposition h evs'
  end.

(** Whether [evs] holds a [signal.signal] call. *)
Fixpoint signals (evs : list (event Json)) : nat :=
  match evs with
  | [] => 0
  | EvSignal _ :: evs' => S (signals evs')
  | _ :: evs' => signals evs'
  end.

(** The calls made between masking SIGINT and calling the constructor. *)
Definition preparations (use_gui : bool) (args : Args) (b : basics)
  : list (event Json) :=
  EvInitLogging (outname b +:+ ".log")
  :: (if bool_decide (effective_tape_format use_gui args ∈ supported_tape_formats)
      then []
      else [EvWarning (unsupported_warning (effective_tape_format use_gui args))])
  ++ (if negb use_gui && dodod args then [EvWarning dodod_warning] else [])
  ++ match debug_plot_request args with
     | Some what => [EvDebugPlot what]
     | None => []
     end.

(** The calls that seek to the first field and set the black level. *)
Definition positioning (args : Args) (b : basics) (system : string)
  : list (event Json) :=
  (if start_fileloc args =? -1
   then EvRoughseek (firstframe b * 2) true
   else EvRoughseek (start_fileloc args) false)
  :: (if String.eqb system "NTSC" && negb (ntscj args)
      then [EvSetBlackIRE 7.5%float]
      else []).

(** The calls of [main] up to the start of the dump thread, when the
    loader and the constructor both return; [h] is the SIGINT handler
    found at the start. *)
Definition setup_events (use_gui : bool) (args : Args) (h : handler)
  : list (event Json) :=
  let b := get_basics ext args in
  let system := select_system ext args in
  EvMakeLoader (filename b) (select_sample_freq ext args)
  :: EvSignal SIG_IGN
  :: preparations use_gui args b
  ++ [EvVHSDecode (decoder_kwargs ext use_gui args system); EvSignal h]
  ++ positioning args b system.

End Runs.

(** ** The dump thread *)

(** Modelled from the spec: the Checkpoint Writer ([lddu.jsondump_thread],
    defined outside [main.py]).  One consumer takes the messages of an
    unbounded queue in the order they were enqueued; a snapshot replaces
    the content of the output file; the stop message ends the consumer. *)
Record writer (Json : Type) := {
  queue : list (option Json);
  running : bool;
  file : option Json;
  processed : list (option Json);
}.

Arguments queue {_} _.
Arguments running {_} _.
Arguments file {_} _.
Arguments processed {_} _.

(** The driver, as the calls it has still to make, beside the writer. *)
Record system (Json : Type) := {
  todo : list (event Json);
  dumper : writer Json;
}.

Arguments todo {_} _.
Arguments dumper {_} _.

Inductive actor := Driver | Writer.

Section Threads.
Context {Json : Type}.

Definition writer_start : writer Json :=
  {| queue := []; running := true; file := None; processed := [] |}.

(** One message taken by the consumer; [None] when it has stopped or
    waits on an empty queue. *)
Definition writer_step (w : writer Json) : option (writer Json) :=
  if running w then
    match queue w with
    | [] => None
    | Some j :: q =>
        Some {| queue := q; running := true; file := Some j;
                processed := processed w ++ [Some j] |}
    | None :: q =>
        Some {| queue := q; running := false; file := file w;
                processed := processed w ++ [None] |}
    end
  else None.

(** [jsondumper.put(msg)] appends to the queue and returns at once. *)
Definition enqueue (msg : option Json) (w : writer Json) : writer Json :=
  {| queue := queue w ++ [msg]; running := running w; file := file w;
     processed := processed w |}.

(** The next call of the driver; only a [put] touches the writer. *)
Definition driver_step (s : system Json) : option (system Json) :=
  match todo s with
  | [] => None
  | EvPut msg :: rest => Some {| todo := rest; dumper := enqueue msg (dumper s) |}
  | _ :: rest => Some {| todo := rest; dumper := dumper s |}
  end.

Definition sys_step (a : actor) (s : system Json) : option (system Json) :=
  match a with
  | Driver => driver_step s
  | Writer =>
      match writer_step (dumper s) with
      | Some w => Some {| todo := todo s; dumper := w |}
      | None => None
      end
  end.

(** A schedule, step by step; [None] when the scheduled thread cannot move. *)
Fixpoint sys_run (sched : list actor) (s : system Json) : option (system Json) :=
  match sched with
  | [] => Some s
  | a :: sched' =>
      match sys_step a s with
      | Some s' => sys_run sched' s'
      | None => None
      end
  end.

(** The writer left alone with a queue until it stops or the queue is
    empty. *)
Fixpoint writer_drain (fuel : nat) (w : writer Json) : writer Json :=
  match fuel with
  | O => w
  | S fuel' =>
      match writer_step w with
      | Some w' => writer_drain fuel' w'
      | None => w
      end
  end.

(** The system at the start of a run whose driver makes the calls [evs]. *)
Definition sys_start (evs : list (event Json)) : system Json :=
  {| todo := evs; dumper := writer_start |}.

(** What links the two threads at any moment of a run whose driver makes
    the calls [evs]: the messages processed so far, then those waiting in
    the queue, are the messages of the calls made so far, in order; and
    the consumer has stopped only on a stop message. *)
Definition fifo_invariant (evs : list (event Json)) (s : system Json) : Prop :=
  exists made,
    evs = made ++ todo s /\
    processed (dumper s) ++ queue (dumper s) = puts made /\
    (running (dumper s) = false ->
     exists before, processed (dumper s) = before ++ [None]).

End Threads.

(** ** Scripted collaborators

    A decoder that answers [readfield] from a script, and a decoder that
    never runs out of fields; the runs below are evaluated on them. *)
Module Fake.

Inductive reply :=
| GiveField
| NoMoreFields
| Interrupted
| Fails (msg : string).

Record engine := {
  written : Z;
  offset : Z;
  script : list reply;
  closed : bool;
}.

Definition fresh (script : list reply) : engine :=
  {| written := 0; offset := 0; script := script; closed := false |}.

(** A field advances both counters; a failure happens part way into the
    field; an exhausted script reads as the end of the input. *)
Definition fake_readfield (e : engine)
  : (readfield_raise + option unit) * engine :=
  match script e with
  | [] => (inr None, e)
  | GiveField :: rest =>
      (inr (Some tt),
       {| written := written e + 1; offset := offset e + 1000;
          script := rest; closed := closed e |})
  | NoMoreFields :: rest =>
      (inr None,
       {| written := written e; offset := offset e;
          script := rest; closed := closed e |})
  | Interrupted :: rest =>
      (inl RaiseKeyboardInterrupt,
       {| written := written e; offset := offset e + 1;
          script := rest; closed := closed e |})
  | Fails msg :: rest =>
      (inl (RaiseException (RuntimeError msg)),
       {| written := written e; offset := offset e + 500;
          script := rest; closed := closed e |})
  end.

Definition fake_close (e : engine) : engine :=
  {| written := written e; offset := offset e; script := script e;
     closed := true |}.

(** A snapshot records the two counters. *)
Definition fake_json (e : engine) : Z * Z := (written e, offset e).

Definition run_basics (frames : Z) : basics :=
  {| filename := "capture.ldf"; outname := "out"; firstframe := 0;
     req_frames := frames |}.

Definition ext (frames : Z) (loader : exception + unit)
  (decoder : exception + engine) : Externals unit engine unit (Z * Z) :=
  {| get_basics := fun _ => run_basics frames;
     select_system := fun _ => "PAL";
     select_sample_freq := fun _ => PyInt 40;
     get_rf_options := fun _ => ∅;
     get_extra_options := fun _ _ => ∅;
     DEFAULT_THRESHOLD_P_DDD := 0.125%float;
     DEFAULT_THRESHOLD_P_CXADC := 0.25%float;
     make_loader := fun _ _ => loader;
     VHSDecode := fun _ _ _ _ => decoder;
     roughseek := fun _ _ e => e;
     set_blackIRE := fun _ e => e;
     fields_written := written;
     fdoffset := offset;
     readfield := fake_readfield;
     build_json := fake_json;
     close := fake_close |}.

(** The decoder that always has one more field: its state is the number
    of fields written. *)
Definition endless (frames : Z) : Externals unit Z unit Z :=
  {| get_basics := fun _ => run_basics frames;
     select_system := fun _ => "PAL";
     select_sample_freq := fun _ => PyInt 40;
     get_rf_options := fun _ => ∅;
     get_extra_options := fun _ _ => ∅;
     DEFAULT_THRESHOLD_P_DDD := 0.125%float;
     DEFAULT_THRESHOLD_P_CXADC := 0.25%float;
     make_loader := fun _ _ => inr tt;
     VHSDecode := fun _ _ _ _ => inr 0;
     roughseek := fun _ _ n => n;
     set_blackIRE := fun _ n => n;
     fields_written := fun n => n;
     fdoffset := fun n => n * 1000;
     readfield := fun n => (inr (Some tt), n + 1);
     build_json := fun n => n;
     close := fun n => n |}.

(** A command line with every switch off and the tape format [tape]. *)
Definition args (tape : string) : Args :=
  {| dodod := false; umatic := false; tape_format := tape;
     level_adjust := 0.125%float; high_boost := None;
     disable_diff_demod := false; disable_dc_offset := false;
     nldeemp := false; cafc := false; track_phase := None;
     recheck_phase := false; disable_comb := false; debug_plot := None;
     sync_clip := false; nodod := false; dod_threshold_p := None;
     dod_threshold_a := None; dod_hysteresis := 1.25%float;
     cxadc := false; cxadc3 := false; cxadc_tenbit := false;
     cxadc3_tenbit := false; threads := 1; start_fileloc := -1;
     ntscj := false |}.

(** The calls of a run over two fields with one frame asked for. *)
Definition two_fields : list (event (Z * Z)) :=
  events_of
    (decode (ext 1 (inr tt) (inr (fresh [GiveField; GiveField])))
       (args "VHS") (run_basics 1) 5 (fresh [GiveField; GiveField])
       default_int_handler).

(** A decoder that has written [n] fields and holds [script]. *)
Definition at_field (n : Z) (script : list reply) : engine :=
  {| written := n; offset := n * 1000; script := script; closed := false |}.

End Fake.

(** ** The rest of [main] *)

(** The keys [main] writes into [rf_options] (lines 191-202). *)
Definition main_rf_keys : gset string :=
  {[ "dod_threshold_p"; "dod_threshold_a"; "dod_hysteresis"; "track_phase";
     "recheck_phase"; "high_boost"; "disable_diff_demod"; "disable_dc_offset";
     "disable_comb"; "nldeemp"; "cafc"; "sync_clip" ]}.

(** How many of the counts [1 .. n] pass the cadence test of the loop. *)
Definition cadence_count (n : Z) : Z := Z.min n 99 + n / 500.

Section Rest.
Context {Loader Engine Field Json : Type}.
Context (ext : Externals Loader Engine Field Json).

(** The decoder as lines 248-255 leave it. *)
Definition positioned (args : Args) (b : basics) (system : string)
  (vhsd : Engine) : Engine :=
  let vhsd :=
    if start_fileloc args =? -1
    then roughseek ext (firstframe b * 2) true vhsd
    else roughseek ext (start_fileloc args) false vhsd in
  if String.eqb system "NTSC" && negb (ntscj args)
  then set_blackIRE ext 7.5%float vhsd
  else vhsd.

(** The calls made from the start of the dump thread on: calls of
    [readfield], [put] and [close], and output. *)
Definition driver_call (ev : event Json) : bool :=
  match ev with
  | EvJsondumpThread _ | EvReadfield | EvPut _ | EvClose
  | EvPrint _ _ | EvPrintTb _ => true
  | _ => false
  end.

(** The warnings logged: the messages of the [logger.warning] calls. *)
Fixpoint warnings (evs : list (event Json)) : list string :=
  match evs with
  | [] => []
  | EvWarning msg :: evs' => msg :: warnings evs'
  | _ :: evs' => warnings evs'
  end.

End Rest.

(** A decoder that hands back fields without ever counting one, behind
    a [get_rf_options] that fills in keys of its own. *)
Module Probe.

Definition stock_options : gmap string pyval :=
  <["dod_threshold_p" := PyFloat 9%float]>
  (<["chroma_trap" := PyBool true]> ∅).

Definition ext : Externals unit Z unit Z :=
  {| get_basics := fun _ => Fake.run_basics 2;
     select_system := fun _ => "NTSC";
     select_sample_freq := fun _ => PyInt 40;
     get_rf_options := fun _ => stock_options;
     get_extra_options := fun _ _ => ∅;
     DEFAULT_THRESHOLD_P_DDD := 0.125%float;
     DEFAULT_THRESHOLD_P_CXADC := 0.25%float;
     make_loader := fun _ _ => inr tt;
     VHSDecode := fun _ _ _ _ => inr 0;
     roughseek := fun location _ _ => location;
     set_blackIRE := fun _ n => n;
     fields_written := fun _ => 0;
     fdoffset := fun n => n;
     readfield := fun n => (inr (Some tt), n + 1);
     build_json := fun n => n;
     close := fun n => n |}.

End Probe.

(** ** The command line *)

(** Text is held in UTF-8; a text of ASCII characters only has every
    byte below 128. *)
Fixpoint ascii_only (s : string) : bool :=
  match s with
  | EmptyString => true
  | String c s' => (Ascii.nat_of_ascii c <? 128)%nat && ascii_only s'
  end.

(** [args] with another [tape_format]. *)
Definition with_tape_format (tf : string) (a : Args) : Args :=
  {| dodod := dodod a; umatic := umatic a; tape_format := tf;
     level_adjust := level_adjust a; high_boost := high_boost a;
     disable_diff_demod := disable_diff_demod a;
     disable_dc_offset := disable_dc_offset a; nldeemp := nldeemp a;
     cafc := cafc a; track_phase := track_phase a;
     recheck_phase := recheck_phase a; disable_comb := disable_comb a;
     debug_plot := debug_plot a; sync_clip := sync_clip a; nodod := nodod a;
     dod_threshold_p := dod_threshold_p a; dod_threshold_a := dod_threshold_a a;
     dod_hysteresis := dod_hysteresis a; cxadc := cxadc a; cxadc3 := cxadc3 a;
     cxadc_tenbit := cxadc_tenbit a; cxadc3_tenbit := cxadc3_tenbit a;
     threads := threads a; start_fileloc := start_fileloc a;
     ntscj := ntscj a |}.

Section CommandLine.
Context {Loader Engine Field Json : Type}.
Context (ext : Externals Loader Engine Field Json).

(** Python's [str.upper], which knows all of Unicode, is taken as it
    comes; what a statement needs of it, it says. *)
Context (upper : string -> string).

(** Lines 39-47 and 173: the [--tape_format] option in [parse_args].  The
    parser passes the word given on the command line through [type], here
    [str.upper], and then requires the result to be one of [choices];
    without the option the value is the default, passed through [type]
    as well.  [None] is the parser's refusal. *)
Definition parse_tape_format (given : option string) : option string :=
  match given with
  | None => Some (upper "VHS")
  | Some word =>
      if bool_decide (upper word ∈ supported_tape_formats)
      then Some (upper word)
      else None
  end.

(** [main] from line 173 on, for the tape format given on the command
    line ([None]: not given) and the other arguments as parsed.  A
    refusal of the parser ends the process with status 2 before anything
    of line 175 on runs; the usage text the parser then writes is its
    own and is not among the calls recorded. *)
Definition main_from_command_line (use_gui : bool) (given : option string)
  (others : Args) (fuel : nat) : M Json unit :=
  match parse_tape_format given with
  | None => py_exit 2
  | Some tf => main ext use_gui (with_tape_format tf others) fuel
  end.

End CommandLine.

(** An upper-casing that knows one letter outside ASCII: the long s
    (U+017F, in UTF-8 the bytes 197 and 191), whose upper case is S. *)
Module Unicode.

Definition long_s (rest : string) : string :=
  String (Ascii.ascii_of_nat 197) (String (Ascii.ascii_of_nat 191) rest).

Fixpoint upper (s : string) : string :=
  match s with
  | EmptyString => EmptyString
  | String c tail =>
      match tail with
      | String c' rest =>
          if ((Ascii.nat_of_ascii c =? 197) && (Ascii.nat_of_ascii c' =? 191))%nat
          then String "S" (upper rest)
          else String (ascii_upper c) (upper tail)
      | EmptyString => String (ascii_upper c) EmptyString
      end
  end.

End Unicode.

(** ** Interrupts outside [readfield] *)


Section Interrupts.
Context {Loader Engine Field Json : Type}.
Context (ext : Externals Loader Engine Field Json).
Context (args : Args).





End Interrupts.

(** * Properties *)

Section Facts.
Context {Loader Engine Field Json : Type}.
Context (ext : Externals Loader Engine Field Json).
Context (args : Args).

Implicit Types (evs pre : list (event Json)) (vhsd : Engine) (h : handler).

(** *** Counting calls *)

Lemma puts_app evs evs' : puts (evs ++ evs') = puts evs ++ puts evs'.
Proof.
  induction evs as [|ev evs IH]; [reflexivity|].
  destruct ev; simpl; rewrite ?IH; reflexivity.
Qed.

Lemma sentinels_app evs evs' :
  sentinels (evs ++ evs') = (sentinels evs + sentinels evs')%nat.
Proof.
  induction evs as [|ev evs IH]; [reflexivity|].
  destruct ev as [| | | | | | | | | |[j|]| | |]; simpl; rewrite ?IH; reflexivity.
Qed.

Lemma closes_app evs evs' : closes (evs ++ evs') = (closes evs + closes evs')%nat.
Proof.
  induction evs as [|ev evs IH]; [reflexivity|].
  destruct ev; simpl; rewrite ?IH; reflexivity.
Qed.

Lemma reads_app evs evs' : reads (evs ++ evs') = (reads evs + reads evs')%nat.
Proof.
  induction evs as [|ev evs IH]; [reflexivity|].
  destruct ev; simpl; rewrite ?IH; reflexivity.
Qed.

Lemma signals_app evs evs' : signals (evs ++ evs') = (signals evs + signals evs')%nat.
Proof.
  induction evs as [|ev evs IH]; [reflexivity|].
  destruct ev; simpl; rewrite ?IH; reflexivity.
Qed.

Lemma sentinels_puts evs : puts evs = [] -> sentinels evs = 0%nat.
Proof.
  induction evs as [|ev evs IH]; [reflexivity|].
  destruct ev; simpl; try assumption. discriminate.
Qed.

Lemma snapshot_events_counts vhsd :
  sentinels (snapshot_events ext vhsd) = 0%nat /\
  closes (snapshot_events ext vhsd) = 0%nat /\
  reads (snapshot_events ext vhsd) = 0%nat.
Proof.
  unfold snapshot_events.
  destruct (snapshot_due (fields_written ext vhsd)); repeat split.
Qed.

Lemma finalization_counts vhsd :
  sentinels (finalization ext vhsd) = 1%nat /\
  closes (finalization ext vhsd) = 1%nat /\
  reads (finalization ext vhsd) = 0%nat.
Proof. repeat split. Qed.

Lemma diagnostic_counts vhsd err :
  sentinels (diagnostic ext args vhsd err) = 0%nat /\
  closes (diagnostic ext args vhsd err) = 0%nat /\
  reads (diagnostic ext args vhsd err) = 0%nat.
Proof. repeat split. Qed.

(** *** One pass of the loop *)

Lemma cleanup_run vhsd h :
  cleanup ext vhsd h = (Ret (close ext vhsd), h, finalization ext vhsd).
Proof. reflexivity. Qed.

Lemma loop_body_result done vhsd f vhsd' h :
  readfield ext vhsd = (inr f, vhsd') ->
  loop_body ext args done vhsd h =
    (Ret (match f with None => true | Some _ => done end, vhsd'), h,
     EvReadfield :: snapshot_events ext vhsd').
Proof.
  intros Hread. unfold loop_body, snapshot_events. run. rewrite Hread.
  destruct (snapshot_due (fields_written ext vhsd')); reflexivity.
Qed.

Lemma loop_body_interrupt done vhsd vhsd' h :
  readfield ext vhsd = (inl RaiseKeyboardInterrupt, vhsd') ->
  loop_body ext args done vhsd h =
    (Raise (SystemExit 1), h,
     EvReadfield :: EvPrint Stdout [PStr "Terminated, saving JSON and exiting"]
       :: finalization ext vhsd').
Proof.
  intros Hread. unfold loop_body. run. rewrite Hread. reflexivity.
Qed.

Lemma loop_body_failure done vhsd vhsd' err h :
  readfield ext vhsd = (inl (RaiseException err), vhsd') ->
  loop_body ext args done vhsd h =
    (Raise (SystemExit 1), h,
     EvReadfield :: diagnostic ext args vhsd' err ++ finalization ext vhsd').
Proof.
  intros Hread. unfold loop_body. run. rewrite Hread. reflexivity.
Qed.

(** *** The loop *)

Lemma decode_loop_exit frames fuel done vhsd h :
  negb done && (fields_written ext vhsd <? frames * 2) = false ->
  decode_loop ext args frames fuel done vhsd h = (Ret vhsd, h, []).
Proof. intros Hc. destruct fuel; simpl; rewrite Hc; reflexivity. Qed.

Lemma decode_loop_no_fuel frames done vhsd h :
  negb done && (fields_written ext vhsd <? frames * 2) = true ->
  decode_loop ext args frames 0 done vhsd h = (OutOfFuel, h, []).
Proof. intros Hc. simpl. rewrite Hc. reflexivity. Qed.

Lemma decode_loop_pass frames fuel done vhsd f vhsd' h :
  negb done && (fields_written ext vhsd <? frames * 2) = true ->
  readfield ext vhsd = (inr f, vhsd') ->
  decode_loop ext args frames (S fuel) done vhsd h =
    let r := decode_loop ext args frames fuel
               (match f with None => true | Some _ => done end) vhsd' h in
    (result_of r, sigint_of r,
     EvReadfield :: snapshot_events ext vhsd' ++ events_of r).
Proof.
  intros Hc Hread. simpl. rewrite Hc.
  unfold mbind, M_bind, m_bind. rewrite (loop_body_result _ _ _ _ _ Hread).
  destruct (decode_loop _ _ _ _ _ _ _) as [[o h'] evs]. reflexivity.
Qed.

Lemma decode_loop_interrupt frames fuel done vhsd vhsd' h :
  negb done && (fields_written ext vhsd <? frames * 2) = true ->
  readfield ext vhsd = (inl RaiseKeyboardInterrupt, vhsd') ->
  decode_loop ext args frames (S fuel) done vhsd h =
    (Raise (SystemExit 1), h,
     EvReadfield :: EvPrint Stdout [PStr "Terminated, saving JSON and exiting"]
       :: finalization ext vhsd').
Proof.
  intros Hc Hread. simpl. rewrite Hc.
  unfold mbind, M_bind, m_bind. rewrite (loop_body_interrupt _ _ _ _ Hread).
  reflexivity.
Qed.

Lemma decode_loop_failure frames fuel done vhsd vhsd' err h :
  negb done && (fields_written ext vhsd <? frames * 2) = true ->
  readfield ext vhsd = (inl (RaiseException err), vhsd') ->
  decode_loop ext args frames (S fuel) done vhsd h =
    (Raise (SystemExit 1), h,
     EvReadfield :: diagnostic ext args vhsd' err ++ finalization ext vhsd').
Proof.
  intros Hc Hread. simpl. rewrite Hc.
  unfold mbind, M_bind, m_bind. rewrite (loop_body_failure _ _ _ _ _ Hread).
  reflexivity.
Qed.

(** The passes counted by [passes] are the first passes of the loop. *)
Lemma decode_loop_passes frames k fuel vhsd last pre h :
  passes ext frames k vhsd = Some (last, pre) ->
  decode_loop ext args frames (k + fuel) false vhsd h =
    let r := decode_loop ext args frames fuel false last h in
    (result_of r, sigint_of r, pre ++ events_of r).
Proof.
  revert vhsd pre. induction k as [|k IH]; intros vhsd pre Hp; simpl in Hp.
  - injection Hp as <- <-. simpl.
    destruct (decode_loop _ _ _ _ _ _ _) as [[o h'] evs]. reflexivity.
  - destruct (fields_written ext vhsd <? frames * 2) eqn:Hc; [|discriminate].
    destruct (readfield ext vhsd) as [[r|[f|]] vhsd'] eqn:Hread; try discriminate.
    destruct (passes ext frames k vhsd') as [[l evs]|] eqn:Hk; [|discriminate].
    injection Hp as <- <-.
    change (S k + fuel)%nat with (S (k + fuel)).
    rewrite (decode_loop_pass frames (k + fuel) false vhsd (Some f) vhsd' h);
      [|rewrite Hc; reflexivity|exact Hread].
    rewrite (IH _ _ Hk). simpl.
    rewrite <- app_assoc. reflexivity.
Qed.

Lemma passes_reads frames k vhsd last pre :
  passes ext frames k vhsd = Some (last, pre) -> reads pre = k.
Proof.
  revert vhsd pre. induction k as [|k IH]; intros vhsd pre Hp; simpl in Hp.
  - injection Hp as <- <-. reflexivity.
  - destruct (fields_written ext vhsd <? frames * 2); [|discriminate].
    destruct (readfield ext vhsd) as [[r|[f|]] vhsd']; try discriminate.
    destruct (passes ext frames k vhsd') as [[l evs]|] eqn:Hk; [|discriminate].
    injection Hp as <- <-. simpl. rewrite reads_app.
    destruct (snapshot_events_counts vhsd') as (_ & _ & ->).
    rewrite (IH _ _ Hk). reflexivity.
Qed.


End Facts.

(** Counting distributes over the concatenation of runs. *)
Create Rewrite HintDb counts.
#[global] Hint Rewrite @puts_app @sentinels_app @closes_app @reads_app
  @signals_app : counts.

Section Shape.
Context {Loader Engine Field Json : Type}.
Context (ext : Externals Loader Engine Field Json).
Context (args : Args).

Implicit Types (evs pre : list (event Json)) (vhsd : Engine) (h : handler).

(** What a run of the loop looks like, whichever way it ends: no call of
    [cleanup] while it goes on or when it ends by itself; when it raises,
    it raises [SystemExit 1] right after the one [cleanup]. *)
Lemma decode_loop_shape frames fuel done vhsd h :
  let r := decode_loop ext args frames fuel done vhsd h in
  sigint_of r = h /\
  match result_of r with
  | Ret _ | OutOfFuel =>
      sentinels (events_of r) = 0%nat /\ closes (events_of r) = 0%nat
  | Raise e =>
      exists way pre last,
        e = SystemExit 1 /\ exit_status way = 1 /\
        events_of r = pre ++ announcement way :: finalization ext last /\
        sentinels pre = 0%nat /\ closes pre = 0%nat
  end.
Proof.
  revert done vhsd h. induction fuel as [|fuel IH]; intros done vhsd h.
  - simpl. destruct (negb done && _); simpl; auto.
  - destruct (negb done && (fields_written ext vhsd <? frames * 2)) eqn:Hc.
    2:{ rewrite decode_loop_exit by exact Hc. simpl. auto. }
    destruct (readfield ext vhsd) as [[[|err]|f] vhsd'] eqn:Hread.
    + rewrite (decode_loop_interrupt _ _ _ _ _ _ _ _ Hc Hread). simpl.
      split; [reflexivity|].
      exists UserInterrupt, [EvReadfield], vhsd'. auto.
    + rewrite (decode_loop_failure _ _ _ _ _ _ _ _ _ Hc Hread). simpl.
      split; [reflexivity|].
      exists (DecodeFailure err),
        (EvReadfield :: take 4 (diagnostic ext args vhsd' err)), vhsd'. auto.
    + rewrite (decode_loop_pass _ _ _ _ _ _ _ _ _ Hc Hread).
      specialize (IH (match f with None => true | Some _ => done end) vhsd' h).
      destruct (decode_loop _ _ _ _ _ _ _) as [[o h'] evs].
      cbn [result_of sigint_of events_of fst snd] in *.
      destruct IH as [-> IH]. split; [reflexivity|].
      destruct (snapshot_events_counts ext vhsd') as (Hs & Hcl & _).
      destruct o as [a|e|].
      * simpl. autorewrite with counts. rewrite Hs, Hcl. exact IH.
      * destruct IH as (way & pre & last & -> & Hway & -> & Hps & Hpc).
        exists way, (EvReadfield :: snapshot_events ext vhsd' ++ pre), last.
        repeat split; auto.
        -- simpl. rewrite app_assoc. reflexivity.
        -- simpl. rewrite sentinels_app, Hs. exact Hps.
        -- simpl. rewrite closes_app, Hcl. exact Hpc.
      * simpl. autorewrite with counts. rewrite Hs, Hcl. exact IH.
Qed.

(** [decode] in terms of its loop. *)
Lemma decode_unfold b fuel vhsd h :
  decode ext args b fuel vhsd h =
    let l := decode_loop ext args (req_frames b) fuel false vhsd h in
    match result_of l with
    | Ret last =>
        (Raise (SystemExit 0), sigint_of l,
         EvJsondumpThread (outname b) :: events_of l
           ++ EvPrint Stdout [PStr "saving JSON and exiting"]
           :: finalization ext last)
    | Raise e => (Raise e, sigint_of l, EvJsondumpThread (outname b) :: events_of l)
    | OutOfFuel => (OutOfFuel, sigint_of l, EvJsondumpThread (outname b) :: events_of l)
    end.
Proof.
  unfold decode. run.
  destruct (decode_loop _ _ _ _ _ _ _) as [[[last|e|] h'] evs]; reflexivity.
Qed.

(** As [decode_loop_shape], for the loop between the start of the dump
    thread and the exit. *)
Lemma decode_shape b fuel vhsd h :
  let r := decode ext args b fuel vhsd h in
  sigint_of r = h /\
  match result_of r with
  | OutOfFuel => sentinels (events_of r) = 0%nat /\ closes (events_of r) = 0%nat
  | Raise (SystemExit code) =>
      exists way pre last,
        code = exit_status way /\
        events_of r = pre ++ announcement way :: finalization ext last /\
        sentinels pre = 0%nat /\ closes pre = 0%nat
  | _ => False
  end.
Proof.
  unfold decode. run.
  pose proof (decode_loop_shape (req_frames b) fuel false vhsd h) as Hloop.
  destruct (decode_loop _ _ _ _ _ _ _) as [[o h'] evs].
  cbn [result_of sigint_of events_of fst snd] in *.
  destruct Hloop as [-> Hloop]. destruct o as [last|e|]; simpl.
  - split; [reflexivity|]. destruct Hloop as [Hs Hc].
    exists Completed, (EvJsondumpThread (outname b) :: evs), last.
    repeat split; auto.
  - split; [reflexivity|].
    destruct Hloop as (way & pre & last & -> & Hway & -> & Hs & Hc).
    exists way, (EvJsondumpThread (outname b) :: pre), last.
    repeat split; auto.
  - split; [reflexivity|]. exact Hloop.
Qed.

End Shape.

Section Setup.
Context {Loader Engine Field Json : Type}.
Context (ext : Externals Loader Engine Field Json).
Context (use_gui : bool) (args : Args).

Implicit Types (evs pre : list (event Json)) (vhsd : Engine) (h : handler).

Lemma disposition_quiet h evs : signals evs = 0%nat -> disposition h evs = h.
Proof.
  induction evs as [|ev evs IH]; [reflexivity|].
  destruct ev; simpl; try exact IH. discriminate.
Qed.

Lemma preparations_quiet b :
  puts (preparations (Json := Json) use_gui args b) = [] /\
  closes (preparations (Json := Json) use_gui args b) = 0%nat /\
  signals (preparations (Json := Json) use_gui args b) = 0%nat.
Proof.
  unfold preparations.
  destruct (bool_decide _), (negb use_gui && dodod args),
    (debug_plot_request args); repeat split.
Qed.

Lemma positioning_quiet b system :
  puts (positioning (Json := Json) args b system) = [] /\
  closes (positioning (Json := Json) args b system) = 0%nat.
Proof.
  unfold positioning.
  destruct (start_fileloc args =? -1), (String.eqb system "NTSC" && negb (ntscj args));
    repeat split.
Qed.

Lemma load_samples_loaded file sample_freq loader h :
  make_loader ext file sample_freq = inr loader ->
  load_samples ext file sample_freq h =
    (Ret loader, h, [EvMakeLoader file sample_freq]).
Proof. intros Hl. unfold load_samples. run. rewrite Hl. reflexivity. Qed.

Lemma load_samples_invalid file sample_freq msg h :
  make_loader ext file sample_freq = inl (ValueError msg) ->
  load_samples ext file sample_freq h =
    (Raise (SystemExit 1), h,
     [EvMakeLoader file sample_freq; EvPrint Stdout [PExc (ValueError msg)]]).
Proof. intros Hl. unfold load_samples. run. rewrite Hl. reflexivity. Qed.

Lemma load_samples_other file sample_freq msg h :
  make_loader ext file sample_freq = inl (RuntimeError msg) ->
  load_samples ext file sample_freq h =
    (Raise (Exc (RuntimeError msg)), h, [EvMakeLoader file sample_freq]).
Proof. intros Hl. unfold load_samples. run. rewrite Hl. reflexivity. Qed.

Lemma build_decoder_returns b system loader vhsd h :
  VHSDecode ext (filename b) (outname b) loader
    (decoder_kwargs ext use_gui args system) = inr vhsd ->
  build_decoder ext use_gui args b system loader h =
    (Ret vhsd, h,
     EvSignal SIG_IGN :: preparations use_gui args b
       ++ [EvVHSDecode (decoder_kwargs ext use_gui args system); EvSignal h]).
Proof.
  intros Hv. unfold build_decoder, preparations. run. rewrite Hv.
  destruct (bool_decide _), (negb use_gui && dodod args),
    (debug_plot_request args); reflexivity.
Qed.

Lemma build_decoder_raises b system loader err h :
  VHSDecode ext (filename b) (outname b) loader
    (decoder_kwargs ext use_gui args system) = inl err ->
  build_decoder ext use_gui args b system loader h =
    (Raise (Exc err), SIG_IGN,
     EvSignal SIG_IGN :: preparations use_gui args b
       ++ [EvVHSDecode (decoder_kwargs ext use_gui args system)]).
Proof.
  intros Hv. unfold build_decoder, preparations. run. rewrite Hv.
  destruct (bool_decide _), (negb use_gui && dodod args),
    (debug_plot_request args); reflexivity.
Qed.

Lemma position_run b system vhsd h :
  exists vhsd',
    position ext args b system vhsd h = (Ret vhsd', h, positioning args b system).
Proof.
  unfold position, positioning. run.
  destruct (start_fileloc args =? -1), (String.eqb system "NTSC" && negb (ntscj args));
    eexists; reflexivity.
Qed.

Lemma setup_events_quiet h :
  puts (setup_events ext use_gui args h) = [] /\
  closes (setup_events ext use_gui args h) = 0%nat.
Proof.
  unfold setup_events. cbn [puts closes]. rewrite !puts_app, !closes_app.
  cbn [puts closes app].
  destruct (preparations_quiet (get_basics ext args)) as (-> & -> & _).
  destruct (positioning_quiet (get_basics ext args) (select_system ext args))
    as (-> & ->).
  split; reflexivity.
Qed.

(** [main] either stops before the dump thread exists, having enqueued
    and closed nothing, or goes on as [decode]. *)
Lemma main_cases fuel h :
  (exists e evs,
      main ext use_gui args fuel h = (Raise e, sigint_of (main ext use_gui args fuel h), evs) /\
      puts evs = [] /\ closes evs = 0%nat) \/
  (exists vhsd,
      main ext use_gui args fuel h =
        let r := decode ext args (get_basics ext args) fuel vhsd h in
        (result_of r, sigint_of r, setup_events ext use_gui args h ++ events_of r)).
Proof.
  unfold main.
  set (b := get_basics ext args). set (system := select_system ext args).
  set (sf := select_sample_freq ext args).
  unfold mbind, M_bind, m_bind.
  destruct (make_loader ext (filename b) sf) as [[msg|msg]|loader] eqn:Hl.
  - rewrite (load_samples_invalid _ _ _ _ Hl). left. eexists _, _.
    split; [reflexivity|]. repeat split.
  - rewrite (load_samples_other _ _ _ _ Hl). left. eexists _, _.
    split; [reflexivity|]. repeat split.
  - rewrite (load_samples_loaded _ _ _ _ Hl).
    destruct (VHSDecode ext (filename b) (outname b) loader
                (decoder_kwargs ext use_gui args system)) as [err|vhsd] eqn:Hv.
    + rewrite (build_decoder_raises _ _ _ _ _ Hv). left. eexists _, _.
      split; [reflexivity|].
      destruct (preparations_quiet b) as (Hp & Hc & _).
      cbn [puts closes app]. rewrite !puts_app, !closes_app, Hp, Hc. repeat split.
    + rewrite (build_decoder_returns _ _ _ _ _ Hv).
      destruct (position_run b system vhsd h) as [vhsd' ->]. right.
      exists vhsd'.
      destruct (decode ext args b fuel vhsd' h) as [[o h'] evs].
      unfold setup_events. fold b system sf. simpl.
      rewrite <- !app_assoc. reflexivity.
Qed.

End Setup.

(** ** The decode loop *)

Section Loop.
Context {Loader Engine Field Json : Type}.
Context (ext : Externals Loader Engine Field Json).
Context (args : Args).

Implicit Types (evs pre : list (event Json)) (vhsd : Engine) (h : handler).

(** No run of [decode] holds more than one [cleanup]: none while the loop
    goes on, and one, at the very end, in a run that ended with [exit].
    This bounds the calls from above only; that a run which leaves the
    loop does end with [exit] is [finalization_once_per_way_out]. *)
Lemma finalization_exactly_once b fuel vhsd h :
  let r := decode ext args b fuel vhsd h in
  match result_of r with
  | OutOfFuel =>
      closes (events_of r) = 0%nat /\ sentinels (events_of r) = 0%nat
  | Raise (SystemExit code) =>
      closes (events_of r) = 1%nat /\ sentinels (events_of r) = 1%nat /\
      exists way pre last,
        code = exit_status way /\
        events_of r = pre ++ announcement way :: finalization ext last /\
        closes pre = 0%nat /\ sentinels pre = 0%nat
  | _ => False
  end.
Proof.
  intros r. destruct (decode_shape ext args b fuel vhsd h) as [_ Hshape].
  fold r in Hshape. destruct (result_of r) as [u|[|code|err]|]; try exact Hshape.
  - destruct Hshape as (way & pre & last & Hcode & Hevs & Hs & Hc).
    rewrite Hevs, closes_app, sentinels_app, Hs, Hc.
    split; [|split]; [destruct way; reflexivity ..|].
    exists way, pre, last. auto.
  - destruct Hshape as [Hs Hc]. auto.
Qed.

(** C2. The status of the process on each way out of the loop, after [k]
    passes that each produced a field.  When the target is reached, or
    [readfield] returns [None], the driver announces the save, runs
    [cleanup] and exits with 0.  When [readfield] raises
    [KeyboardInterrupt], the driver prints its message, runs [cleanup] and
    exits with 1.  When [readfield] raises an [Exception], the driver
    writes to the error stream the offset the decoder stopped at, the
    parsed arguments, the exception and its traceback, runs [cleanup] and
    exits with 1.  On both failing ways the raising call is the last call
    of [readfield]. *)
Theorem exit_status_of_run b fuel k vhsd0 vhsd pre h :
  passes ext (req_frames b) k vhsd0 = Some (vhsd, pre) ->
  (k < fuel)%nat ->
  let r := decode ext args b fuel vhsd0 h in
  let start := EvJsondumpThread (outname b) :: pre in
  (req_frames b * 2 <= fields_written ext vhsd ->
   r = (Raise (SystemExit 0), h,
        start ++ EvPrint Stdout [PStr "saving JSON and exiting"]
          :: finalization ext vhsd)) /\
  (fields_written ext vhsd < req_frames b * 2 ->
   forall vhsd',
     (readfield ext vhsd = (inr None, vhsd') ->
      r = (Raise (SystemExit 0), h,
           start ++ EvReadfield :: snapshot_events ext vhsd'
             ++ EvPrint Stdout [PStr "saving JSON and exiting"]
             :: finalization ext vhsd')) /\
     (readfield ext vhsd = (inl RaiseKeyboardInterrupt, vhsd') ->
      r = (Raise (SystemExit 1), h,
           start ++ EvReadfield
             :: EvPrint Stdout [PStr "Terminated, saving JSON and exiting"]
             :: finalization ext vhsd') /\
      reads (events_of r) = S k) /\
     (forall err,
        readfield ext vhsd = (inl (RaiseException err), vhsd') ->
        r = (Raise (SystemExit 1), h,
             start ++ EvReadfield
               :: [EvPrint Stderr
                     [PStr (nl +:+ "ERROR - please paste the following into a bug report:")];
                   EvPrint Stderr [PStr "current sample:"; PInt (fdoffset ext vhsd')];
                   EvPrint Stderr [PStr "arguments:"; PArgs args];
                   EvPrint Stderr [PStr "Exception:"; PExc err; PStr " Traceback:"];
                   EvPrintTb err]
               ++ finalization ext vhsd') /\
        reads (events_of r) = S k /\
        Forall (fun ev => printed_to ev = Some Stderr)
          (diagnostic ext args vhsd' err))).
Proof.
  intros Hp Hk r start.
  assert (Hfuel : exists fuel', fuel = (k + S fuel')%nat).
  { exists (fuel - S k)%nat. lia. }
  destruct Hfuel as [fuel' ->].
  assert (Hr : r =
    let l := decode_loop ext args (req_frames b) (S fuel') false vhsd h in
    match result_of l with
    | Ret last =>
        (Raise (SystemExit 0), sigint_of l,
         start ++ events_of l
           ++ EvPrint Stdout [PStr "saving JSON and exiting"]
           :: finalization ext last)
    | Raise e => (Raise e, sigint_of l, start ++ events_of l)
    | OutOfFuel => (OutOfFuel, sigint_of l, start ++ events_of l)
    end).
  { subst r start. rewrite decode_unfold.
    rewrite (decode_loop_passes ext args _ _ _ _ _ _ _ Hp).
    destruct (decode_loop ext args (req_frames b) (S fuel') false vhsd h)
      as [[[last|e|] h'] evs]; cbn [result_of sigint_of events_of fst snd];
      rewrite <- ?app_assoc; reflexivity. }
  pose proof (passes_reads ext _ _ _ _ _ Hp) as Hreads.
  split.
  - intros Hdone. rewrite Hr, decode_loop_exit; [reflexivity|].
    simpl. apply Z.ltb_ge. lia.
  - intros Hgo vhsd'.
    assert (Hc : negb false && (fields_written ext vhsd <? req_frames b * 2) = true).
    { simpl. apply Z.ltb_lt. exact Hgo. }
    split; [|split].
    + intros Hread. rewrite Hr, (decode_loop_pass ext args _ _ _ _ _ _ _ Hc Hread).
      rewrite decode_loop_exit by reflexivity. simpl.
      rewrite app_nil_r. reflexivity.
    + intros Hread.
      rewrite Hr, (decode_loop_interrupt ext args _ _ _ _ _ _ Hc Hread).
      split; [reflexivity|].
      subst start. cbn [events_of snd result_of fst reads].
      rewrite reads_app. cbn [reads]. rewrite Hreads. simpl. lia.
    + intros err Hread.
      rewrite Hr, (decode_loop_failure ext args _ _ _ _ _ _ _ Hc Hread).
      split; [reflexivity|]. split.
      * subst start. cbn [events_of snd result_of fst reads].
        rewrite reads_app. cbn [reads]. rewrite Hreads. simpl. lia.
      * repeat constructor.
Qed.

(** C3. With [N] frames asked for, on a decoder that hands back a field on
    every call and counts it, a loop entered with [w] fields written makes
    exactly [2N - w] passes and ends by itself with [2N] fields written
    (none and [w] when [w] is past [2N] already).  On any decoder, the pass
    in which [readfield] returns [None] is the last one, wherever the
    count stands: the loop returns, and the process exits with 0. *)
Theorem decode_loop_terminates frames :
  ((forall e, exists f e',
       readfield ext e = (inr (Some f), e') /\
       fields_written ext e' = fields_written ext e + 1) ->
   forall fuel vhsd h,
     (Z.to_nat (frames * 2 - fields_written ext vhsd) <= fuel)%nat ->
     exists last evs,
       decode_loop ext args frames fuel false vhsd h = (Ret last, h, evs) /\
       fields_written ext last = Z.max (fields_written ext vhsd) (frames * 2) /\
       reads evs = Z.to_nat (frames * 2 - fields_written ext vhsd)) /\
  (forall k fuel vhsd0 vhsd vhsd' pre h,
     passes ext frames k vhsd0 = Some (vhsd, pre) ->
     (k < fuel)%nat ->
     fields_written ext vhsd < frames * 2 ->
     readfield ext vhsd = (inr None, vhsd') ->
     decode_loop ext args frames fuel false vhsd0 h =
       (Ret vhsd', h, pre ++ EvReadfield :: snapshot_events ext vhsd') /\
     forall b, req_frames b = frames ->
       result_of (decode ext args b fuel vhsd0 h) = Raise (SystemExit 0)).
Proof.
  split.
  - intros Hgood fuel. induction fuel as [|fuel IH]; intros vhsd h Hfuel.
    + exists vhsd, []. rewrite decode_loop_exit.
      * repeat split; [lia|]. simpl. lia.
      * simpl. apply Z.ltb_ge. lia.
    + destruct (Z.ltb_spec (fields_written ext vhsd) (frames * 2)) as [Hlt|Hge].
      * destruct (Hgood vhsd) as (f & vhsd' & Hread & Hfw).
        assert (Hc : negb false && (fields_written ext vhsd <? frames * 2) = true).
        { simpl. apply Z.ltb_lt. exact Hlt. }
        rewrite (decode_loop_pass ext args _ _ _ _ _ _ _ Hc Hread).
        destruct (IH vhsd' h) as (last & evs & -> & Hlast & Hreads); [lia|].
        exists last, (EvReadfield :: snapshot_events ext vhsd' ++ evs).
        split; [reflexivity|]. split; [lia|].
        simpl. rewrite reads_app, Hreads.
        destruct (snapshot_events_counts ext vhsd') as (_ & _ & ->). lia.
      * exists vhsd, []. rewrite decode_loop_exit.
        -- repeat split; [lia|]. simpl. lia.
        -- simpl. apply Z.ltb_ge. lia.
  - intros k fuel vhsd0 vhsd vhsd' pre h Hp Hk Hlt Hread.
    assert (Hfuel : exists fuel', fuel = (k + S fuel')%nat).
    { exists (fuel - S k)%nat. lia. }
    destruct Hfuel as [fuel' ->].
    assert (Hc : negb false && (fields_written ext vhsd <? frames * 2) = true).
    { simpl. apply Z.ltb_lt. exact Hlt. }
    assert (Hloop : decode_loop ext args frames (k + S fuel') false vhsd0 h =
                    (Ret vhsd', h, pre ++ EvReadfield :: snapshot_events ext vhsd')).
    { rewrite (decode_loop_passes ext args _ _ _ _ _ _ _ Hp).
      rewrite (decode_loop_pass ext args _ _ _ _ _ _ _ Hc Hread).
      rewrite decode_loop_exit by reflexivity. simpl. rewrite app_nil_r.
      reflexivity. }
    split; [exact Hloop|].
    intros b <-. rewrite decode_unfold, Hloop. reflexivity.
Qed.

(** C4, as the code has it.  A pass in which [readfield] returns, leaving
    [n] fields written, enqueues one snapshot of the decoder if [n < 100]
    or [n] is a multiple of 500, and enqueues nothing otherwise.  So a
    snapshot is enqueued at every [n] from 1 to 99, and from 100 to 1999
    only at 500, 1000 and 1500. *)
Theorem snapshot_cadence done vhsd f vhsd' h :
  readfield ext vhsd = (inr f, vhsd') ->
  let n := fields_written ext vhsd' in
  let evs := events_of (loop_body ext args done vhsd h) in
  puts evs = (if snapshot_due n then [Some (build_json ext vhsd')] else []) /\
  (snapshot_due n = true <-> n < 100 \/ n mod 500 = 0) /\
  (1 <= n <= 99 -> snapshot_due n = true) /\
  (100 <= n <= 1999 ->
   (snapshot_due n = true <-> n = 500 \/ n = 1000 \/ n = 1500)).
Proof.
  intros Hread n evs. subst evs.
  rewrite (loop_body_result ext args _ _ _ _ _ Hread).
  unfold snapshot_events. fold n.
  assert (Hdue : snapshot_due n = true <-> n < 100 \/ n mod 500 = 0).
  { unfold snapshot_due. rewrite orb_true_iff, Z.ltb_lt, Z.eqb_eq. reflexivity. }
  split; [destruct (snapshot_due n); reflexivity|].
  split; [exact Hdue|]. split.
  - intros Hn. apply Hdue. lia.
  - intros Hn. rewrite Hdue. split.
    + intros [Hlt|Hmod]; [lia|].
      pose proof (Z.div_mod n 500 ltac:(lia)) as Hdm.
      assert (0 <= n / 500 <= 3) as Hq.
      { split; [apply Z.div_pos; lia|].
        apply Z.lt_succ_r. apply Z.div_lt_upper_bound; lia. }
      lia.
    + intros [Hn'|[Hn'|Hn']]; rewrite Hn'; right; reflexivity.
Qed.

(** C10. The pass in which [readfield] returns [None] still applies the
    cadence test, to whatever count the decoder then shows.  If the count
    has not moved since the pass before, and that pass enqueued a
    snapshot, the last pass enqueues a second snapshot for the same
    count. *)
Theorem snapshot_on_last_pass frames fuel vhsd0 f vhsd1 vhsd2 h :
  fields_written ext vhsd0 < frames * 2 ->
  readfield ext vhsd0 = (inr (Some f), vhsd1) ->
  fields_written ext vhsd1 < frames * 2 ->
  readfield ext vhsd1 = (inr None, vhsd2) ->
  fields_written ext vhsd2 = fields_written ext vhsd1 ->
  loop_body ext args false vhsd1 h =
    (Ret (true, vhsd2), h,
     EvReadfield ::
       (if snapshot_due (fields_written ext vhsd1)
        then [EvPut (Some (build_json ext vhsd2))] else [])) /\
  (snapshot_due (fields_written ext vhsd1) = true ->
   decode_loop ext args frames (S (S fuel)) false vhsd0 h =
     (Ret vhsd2, h,
      [EvReadfield; EvPut (Some (build_json ext vhsd1));
       EvReadfield; EvPut (Some (build_json ext vhsd2))])).
Proof.
  intros H0 Hr0 H1 Hr1 Hsame.
  assert (Hc0 : negb false && (fields_written ext vhsd0 <? frames * 2) = true).
  { simpl. apply Z.ltb_lt. exact H0. }
  assert (Hc1 : negb false && (fields_written ext vhsd1 <? frames * 2) = true).
  { simpl. apply Z.ltb_lt. exact H1. }
  split.
  - rewrite (loop_body_result ext args _ _ _ _ _ Hr1).
    unfold snapshot_events. rewrite Hsame. reflexivity.
  - intros Hdue.
    rewrite (decode_loop_pass ext args _ _ _ _ _ _ _ Hc0 Hr0).
    rewrite (decode_loop_pass ext args _ _ _ _ _ _ _ Hc1 Hr1).
    rewrite decode_loop_exit by reflexivity.
    unfold snapshot_events. rewrite Hsame, Hdue. reflexivity.
Qed.

End Loop.

(** ** Setting up *)

Section Start.
Context {Loader Engine Field Json : Type}.
Context (ext : Externals Loader Engine Field Json).
Context (use_gui : bool) (args : Args).

Implicit Types (evs pre : list (event Json)) (vhsd : Engine) (h : handler).

(** C5, as the code has it.  The decoder is built with SIGINT ignored.
    When the constructor returns, the handler found before masking is put
    back right after it.  When the constructor raises, the exception
    leaves [main] with SIGINT still ignored: no call follows the
    constructor's. *)
Theorem sigint_restored_when_built b system loader h :
  let kw := decoder_kwargs ext use_gui args system in
  let r := build_decoder ext use_gui args b system loader h in
  let before : list (event Json) :=
    EvSignal SIG_IGN :: preparations use_gui args b in
  disposition h before = SIG_IGN /\
  match VHSDecode ext (filename b) (outname b) loader kw with
  | inr vhsd =>
      r = (Ret vhsd, h, before ++ [EvVHSDecode kw; EvSignal h]) /\
      disposition h (events_of r) = h
  | inl err =>
      r = (Raise (Exc err), SIG_IGN, before ++ [EvVHSDecode kw]) /\
      disposition h (events_of r) = SIG_IGN
  end.
Proof.
  intros kw r before.
  destruct (preparations_quiet (Json := Json) use_gui args b) as (_ & _ & Hq).
  assert (Hmasked : disposition h before = SIG_IGN).
  { simpl. apply disposition_quiet. exact Hq. }
  split; [exact Hmasked|].
  assert (Happ : forall evs evs' : list (event Json),
             disposition h (evs ++ evs') = disposition (disposition h evs) evs').
  { intros evs evs'. generalize h.
    induction evs as [|ev evs IH]; intros h0; [reflexivity|].
    destruct ev; simpl; apply IH. }
  destruct (VHSDecode ext (filename b) (outname b) loader kw) as [err|vhsd] eqn:Hv.
  - subst r. rewrite (build_decoder_raises ext use_gui args _ _ _ _ _ Hv).
    split; [reflexivity|]. unfold events_of, snd.
    change (disposition h (before ++ [EvVHSDecode kw]) = SIG_IGN).
    rewrite Happ, Hmasked. reflexivity.
  - subst r. rewrite (build_decoder_returns ext use_gui args _ _ _ _ _ Hv).
    split; [reflexivity|]. unfold events_of, snd.
    change (disposition h (before ++ [EvVHSDecode kw; EvSignal h]) = h).
    rewrite Happ, Hmasked. reflexivity.
Qed.

(** C8. When the loader raises [ValueError], [main] prints the error and
    exits with status 1; the call of the loader and the [print] are all
    it does: no decoder is built, no dump thread is started, nothing of
    [cleanup] runs. *)
Theorem invalid_input_exits_at_once fuel msg h :
  make_loader ext (filename (get_basics ext args)) (select_sample_freq ext args)
    = inl (ValueError msg) ->
  main ext use_gui args fuel h =
    (Raise (SystemExit 1), h,
     [EvMakeLoader (filename (get_basics ext args)) (select_sample_freq ext args);
      EvPrint Stdout [PExc (ValueError msg)]]).
Proof.
  intros Hl. unfold main. unfold mbind at 1, M_bind, m_bind.
  rewrite (load_samples_invalid ext _ _ _ _ Hl). reflexivity.
Qed.

End Start.

(** ** The driver beside the dump thread *)

Section Queue.
Context {Json : Type}.

Implicit Types (evs made : list (event Json)) (s : system Json).

Lemma fifo_invariant_start evs : fifo_invariant evs (sys_start evs).
Proof. exists []. repeat split. discriminate. Qed.

Lemma fifo_invariant_step evs a s s' :
  fifo_invariant evs s -> sys_step a s = Some s' -> fifo_invariant evs s'.
Proof.
  intros (made & Hevs & Hfifo & Hstop) Hstep. destruct a; simpl in Hstep.
  - unfold driver_step in Hstep.
    destruct (todo s) as [|ev rest] eqn:Htodo; [discriminate|].
    exists (made ++ [ev]). rewrite puts_app.
    destruct ev; injection Hstep as <-; simpl;
      rewrite <- ?app_assoc, ?app_nil_r; repeat split; try assumption.
    rewrite app_assoc, Hfifo. reflexivity.
  - unfold writer_step in Hstep.
    destruct (running (dumper s)) eqn:Hrun; [|discriminate].
    destruct (queue (dumper s)) as [|[j|] q] eqn:Hq; [discriminate|..];
      injection Hstep as <-; exists made; simpl;
      rewrite <- app_assoc; repeat split; try assumption.
    + discriminate.
    + intros _. eexists. reflexivity.
Qed.

Lemma fifo_invariant_run evs sched s s' :
  fifo_invariant evs s -> sys_run sched s = Some s' -> fifo_invariant evs s'.
Proof.
  revert s. induction sched as [|a sched IH]; intros s Hinv Hrun; simpl in Hrun.
  - injection Hrun as <-. exact Hinv.
  - destruct (sys_step a s) as [s1|] eqn:Hstep; [|discriminate].
    apply (IH s1); [|exact Hrun].
    exact (fifo_invariant_step _ _ _ _ Hinv Hstep).
Qed.

Lemma sentinels_none evs : sentinels evs = 0%nat -> None ∉ puts evs.
Proof.
  induction evs as [|ev evs IH]; intros Hs; simpl.
  - apply not_elem_of_nil.
  - destruct ev as [| | | | | | | | | |[j|]| | |]; simpl in Hs; auto; [|discriminate].
    apply not_elem_of_cons. split; [discriminate|auto].
Qed.

(** A list that holds the stop message at its end only, cut right after
    a stop message, is cut at its end. *)
Lemma only_last_stops (msgs before rest : list (option Json)) :
  None ∉ msgs -> msgs ++ [None] = before ++ None :: rest -> rest = [].
Proof.
  intros Hno Heq. destruct rest as [|m rest _] using rev_ind; [reflexivity|].
  exfalso. apply Hno.
  change (before ++ None :: rest ++ [m]) with (before ++ (None :: rest) ++ [m]) in Heq.
  rewrite app_assoc in Heq. apply app_inj_tail in Heq as [-> _].
  apply elem_of_app. right. apply elem_of_cons. left. reflexivity.
Qed.

(** Left alone with the snapshots [js], a last snapshot [j] and the stop
    message in its queue, the consumer takes them all in order and stops:
    the file then holds [j]. *)
Lemma writer_drain_all (js : list Json) (j : Json) :
  forall f p,
    writer_drain (length js + 2)
      {| queue := (Some <$> js) ++ [Some j; None]; running := true;
         file := f; processed := p |}
    = {| queue := []; running := false; file := Some j;
         processed := p ++ (Some <$> js) ++ [Some j; None] |}.
Proof.
  induction js as [|j0 js IH]; intros f p.
  - simpl. rewrite <- app_assoc. reflexivity.
  - change (length (j0 :: js) + 2)%nat with (S (length js + 2)).
    cbn [writer_drain fmap list_fmap app writer_step running queue file processed].
    rewrite IH, <- app_assoc. reflexivity.
Qed.

End Queue.

Section Finish.
Context {Loader Engine Field Json : Type}.
Context (ext : Externals Loader Engine Field Json).
Context (use_gui : bool) (args : Args).

Implicit Types (evs pre : list (event Json)) (vhsd : Engine) (h : handler).

(** The calls of a whole run: none of [cleanup] yet, or the three of
    [cleanup] at the very end and none before. *)
Lemma main_shape fuel h :
  let evs := events_of (main ext use_gui args fuel h) in
  (sentinels evs = 0%nat /\ closes evs = 0%nat) \/
  (exists pre last,
      evs = pre ++ finalization ext last /\
      sentinels pre = 0%nat /\ closes pre = 0%nat).
Proof.
  intros evs. subst evs.
  destruct (main_cases ext use_gui args fuel h)
    as [(e & evs & -> & Hputs & Hcl)|(vhsd & ->)].
  - left. split; [apply sentinels_puts; exact Hputs|exact Hcl].
  - destruct (setup_events_quiet ext use_gui args h) as [Hsp Hsc].
    apply sentinels_puts in Hsp.
    destruct (decode_shape ext args (get_basics ext args) fuel vhsd h) as [_ Hd].
    destruct (decode ext args (get_basics ext args) fuel vhsd h) as [[o h'] evs].
    cbn [result_of sigint_of events_of fst snd] in *.
    destruct o as [u|[|code|err]|]; try contradiction.
    + destruct Hd as (way & pre & last & _ & -> & Hs & Hc). right.
      exists (setup_events ext use_gui args h ++ pre ++ [announcement way]), last.
      autorewrite with counts. rewrite Hsp, Hsc, Hs, Hc.
      split; [|destruct way; split; reflexivity].
      rewrite <- !app_assoc. reflexivity.
    + destruct Hd as [Hs Hc]. left.
      rewrite sentinels_app, closes_app, Hsp, Hsc, Hs, Hc. split; reflexivity.
Qed.

(** C6. In every run of [main], cut off or not: the stop message is
    enqueued at most once; when it is, the last three calls of the run are
    those of [cleanup], in the order snapshot, close, stop message, with
    neither a stop message nor a close before them.  So, whatever the
    interleaving of the driver and the dump thread, the thread takes the
    messages in the order of the calls, and when it has stopped it has
    taken all of them, the stop message last. *)
Theorem sentinel_is_last fuel h :
  let evs := events_of (main ext use_gui args fuel h) in
  (sentinels evs <= 1)%nat /\
  (sentinels evs = 0%nat \/
   exists pre last,
     evs = pre ++ [EvPut (Some (build_json ext last)); EvClose; EvPut None] /\
     sentinels pre = 0%nat /\ closes pre = 0%nat) /\
  (forall vhsd h',
     cleanup ext vhsd h' =
       (Ret (close ext vhsd), h',
        [EvPut (Some (build_json ext vhsd)); EvClose; EvPut None])) /\
  (forall sched s,
     sys_run sched (sys_start evs) = Some s ->
     exists rest,
       puts evs = processed (dumper s) ++ rest /\
       (running (dumper s) = false ->
        rest = [] /\ last (processed (dumper s)) = Some None)).
Proof.
  intros evs. pose proof (main_shape fuel h) as Hshape. fold evs in Hshape.
  cbv zeta in Hshape.
  split; [|split; [|split]].
  - destruct Hshape as [[-> _]|(pre & last & -> & Hs & _)]; [lia|].
    rewrite sentinels_app, Hs. simpl. lia.
  - destruct Hshape as [[Hs _]|Hfin]; [left; exact Hs|right; exact Hfin].
  - intros vhsd h'. reflexivity.
  - intros sched s Hrun.
    destruct (fifo_invariant_run evs sched _ s (fifo_invariant_start evs) Hrun)
      as (made & Hevs & Hfifo & Hstop).
    exists (queue (dumper s) ++ puts (todo s)).
    assert (Hputs : puts evs
                    = processed (dumper s) ++ queue (dumper s) ++ puts (todo s)).
    { rewrite Hevs at 1. rewrite puts_app, <- Hfifo, <- app_assoc. reflexivity. }
    split; [exact Hputs|].
    intros Hoff. destruct (Hstop Hoff) as [before Hproc].
    split; [|rewrite Hproc; apply last_snoc].
    rewrite Hproc, <- app_assoc in Hputs. simpl in Hputs.
    destruct Hshape as [[Hs _]|(pre & last & Hfin & Hs & _)].
    + exfalso. apply (sentinels_none _ Hs). rewrite Hputs.
      apply elem_of_app. right. apply elem_of_cons. left. reflexivity.
    + rewrite Hfin, puts_app in Hputs. simpl in Hputs.
      apply (only_last_stops (puts pre ++ [Some (build_json ext last)]) before).
      * intros Hin. apply elem_of_app in Hin as [Hin|Hin].
        -- exact (sentinels_none _ Hs Hin).
        -- apply list_elem_of_singleton in Hin. discriminate.
      * rewrite <- app_assoc. exact Hputs.
Qed.

(** C7, as the code has it.  [cleanup] makes its three calls and returns;
    the enqueueing of the stop message is the last of them.  Each of the
    three goes through whatever the state of the dump thread, running or
    stopped, with any queue: they add the snapshot and the stop message
    at the end of the queue and leave the rest of the writer as it was. *)
Theorem cleanup_does_not_wait vhsd h (rest : list (event Json)) (w : writer Json) :
  cleanup ext vhsd h = (Ret (close ext vhsd), h, finalization ext vhsd) /\
  last (finalization ext vhsd) = Some (EvPut None) /\
  sys_run [Driver; Driver; Driver]
    {| todo := finalization ext vhsd ++ rest; dumper := w |} =
    Some {| todo := rest;
            dumper := {| queue := queue w ++ [Some (build_json ext vhsd); None];
                         running := running w;
                         file := file w;
                         processed := processed w |} |}.
Proof.
  split; [reflexivity|]. split; [reflexivity|].
  simpl. unfold enqueue. simpl. rewrite <- app_assoc. reflexivity.
Qed.

End Finish.

(** ** Runs of the scripted decoder *)

Section Scripted.
Import Fake.

(** C2 on a run with five frames asked for whose third call of
    [readfield] fails: two fields, the diagnostic with the offset 2500
    the decoder stopped at, [cleanup], status 1. *)
Lemma exit_status_of_run_witness :
  passes (ext 5 (inr tt) (inr (fresh []))) 5 2
    (fresh [GiveField; GiveField; Fails "boom"])
  = Some (at_field 2 [Fails "boom"],
          [EvReadfield; EvPut (Some (1, 1000)); EvReadfield; EvPut (Some (2, 2000))]) /\
  (2 < 10)%nat /\
  decode (ext 5 (inr tt) (inr (fresh []))) (args "VHS") (run_basics 5) 10
    (fresh [GiveField; GiveField; Fails "boom"]) default_int_handler
  = (Raise (SystemExit 1), default_int_handler,
     [EvJsondumpThread "out";
      EvReadfield; EvPut (Some (1, 1000));
      EvReadfield; EvPut (Some (2, 2000));
      EvReadfield;
      EvPrint Stderr
        [PStr (nl +:+ "ERROR - please paste the following into a bug report:")];
      EvPrint Stderr [PStr "current sample:"; PInt 2500];
      EvPrint Stderr [PStr "arguments:"; PArgs (args "VHS")];
      EvPrint Stderr [PStr "Exception:"; PExc (RuntimeError "boom");
                      PStr " Traceback:"];
      EvPrintTb (RuntimeError "boom");
      EvPut (Some (2, 2500)); EvClose; EvPut None]).
Proof.
  assert (Hp : passes (ext 5 (inr tt) (inr (fresh []))) 5 2
                 (fresh [GiveField; GiveField; Fails "boom"])
               = Some (at_field 2 [Fails "boom"],
                       [EvReadfield; EvPut (Some (1, 1000));
                        EvReadfield; EvPut (Some (2, 2000))])).
  { reflexivity. }
  assert (Hk : (2 < 10)%nat) by lia.
  split; [exact Hp|]. split; [exact Hk|].
  destruct (exit_status_of_run (ext 5 (inr tt) (inr (fresh []))) (args "VHS")
              (run_basics 5) 10 2 _ _ _ default_int_handler Hp Hk) as [_ Hgo].
  destruct (Hgo ltac:(reflexivity)
              {| written := 2; offset := 2500; script := []; closed := false |})
    as (_ & _ & Hfail).
  exact (proj1 (Hfail (RuntimeError "boom") eq_refl)).
Defined.

(** C3 on the decoder that never runs out, three frames asked for: six
    passes, six fields written; and on a decoder that reports the end
    after one field, five frames asked for: the second pass is the last. *)
Lemma decode_loop_terminates_witness :
  (exists last evs,
     decode_loop (endless 3) (args "VHS") 3 6 false 0 default_int_handler
       = (Ret last, default_int_handler, evs) /\
     last = 6 /\ reads evs = 6%nat) /\
  decode_loop (ext 5 (inr tt) (inr (fresh []))) (args "VHS") 5 4 false
    (fresh [GiveField; NoMoreFields]) default_int_handler
  = (Ret (at_field 1 []), default_int_handler,
     [EvReadfield; EvPut (Some (1, 1000)); EvReadfield; EvPut (Some (1, 1000))]).
Proof.
  split.
  - destruct (proj1 (decode_loop_terminates (endless 3) (args "VHS") 3)) with
      (fuel := 6%nat) (vhsd := 0) (h := default_int_handler)
      as (last & evs & Hrun & Hlast & Hreads).
    + intros e. exists tt, (e + 1). split; reflexivity.
    + simpl. lia.
    + exists last, evs. split; [exact Hrun|]. split; assumption.
  - refine (proj1 (proj2 (decode_loop_terminates (ext 5 (inr tt) (inr (fresh [])))
                            (args "VHS") 5)
                     1%nat 4%nat (fresh [GiveField; NoMoreFields])
                     (at_field 1 [NoMoreFields]) (at_field 1 [])
                     [EvReadfield; EvPut (Some (1, 1000))] default_int_handler
                     eq_refl _ _ eq_refl)); simpl; lia.
Defined.

(** C4 on the pass that brings the count to 500. *)
Lemma snapshot_cadence_witness :
  fake_readfield (at_field 499 [GiveField])
    = (inr (Some tt), {| written := 500; offset := 500000; script := [];
                         closed := false |}) /\
  puts (events_of (loop_body (ext 300 (inr tt) (inr (fresh []))) (args "VHS")
                     false (at_field 499 [GiveField]) default_int_handler))
    = [Some (500, 500000)].
Proof.
  split; [reflexivity|].
  exact (proj1 (snapshot_cadence (ext 300 (inr tt) (inr (fresh []))) (args "VHS")
                  false (at_field 499 [GiveField]) (Some tt) _ default_int_handler
                  eq_refl)).
Defined.

(** C4 as the claim has it fails at 100: the pass that brings the count
    from 99 to 100 enqueues nothing. *)
Lemma snapshot_cadence_counterexample :
  (1 <= 100 <= 100) /\
  snapshot_due 100 = false /\
  loop_body (ext 300 (inr tt) (inr (fresh []))) (args "VHS") false
    (at_field 99 [GiveField]) default_int_handler
  = (Ret (false, {| written := 100; offset := 100000; script := [];
                    closed := false |}),
     default_int_handler, [EvReadfield]).
Proof. split; [lia|]. split; reflexivity. Qed.

(** C5 as the claim has it fails when the constructor raises: the
    exception leaves [main] with SIGINT ignored, where
    [default_int_handler] was installed at the start; [signal.signal] was
    called once. *)
Lemma sigint_restored_counterexample :
  let r := main (ext 1 (inr tt) (inl (RuntimeError "no sync found"))) false
             (args "VHS") 4 default_int_handler in
  result_of r = Raise (Exc (RuntimeError "no sync found")) /\
  sigint_of r = SIG_IGN /\
  signals (events_of r) = 1%nat /\
  disposition default_int_handler (events_of r) = SIG_IGN.
Proof. repeat split. Qed.

(** C7 as the claim has it fails on the schedule that lets the driver
    make all its calls first: [cleanup] is over, nothing is left to the
    driver but to exit, and the dump thread has not taken one message. *)
Lemma cleanup_waits_counterexample :
  two_fields =
    [EvJsondumpThread "out";
     EvReadfield; EvPut (Some (1, 1000));
     EvReadfield; EvPut (Some (2, 2000));
     EvPrint Stdout [PStr "saving JSON and exiting"];
     EvPut (Some (2, 2000)); EvClose; EvPut None] /\
  sys_run (replicate 9 Driver) (sys_start two_fields) =
    Some {| todo := [];
            dumper := {| queue := [Some (1, 1000); Some (2, 2000);
                                   Some (2, 2000); None];
                         running := true;
                         file := None;
                         processed := [] |} |}.
Proof. split; reflexivity. Qed.

(** C8 on a loader that rejects the file. *)
Lemma invalid_input_exits_at_once_witness :
  main (ext 1 (inl (ValueError "unknown file type")) (inr (fresh [GiveField])))
    false (args "VHS") 4 default_int_handler
  = (Raise (SystemExit 1), default_int_handler,
     [EvMakeLoader "capture.ldf" (PyInt 40);
      EvPrint Stdout [PExc (ValueError "unknown file type")]]).
Proof.
  exact (invalid_input_exits_at_once
           (ext 1 (inl (ValueError "unknown file type")) (inr (fresh [GiveField])))
           false (args "VHS") 4 "unknown file type" default_int_handler eq_refl).
Defined.

(** C10 on a decoder that gives one field and then reports the end: the
    snapshot of the count 1 is enqueued by the first pass and again by
    the last. *)
Lemma snapshot_on_last_pass_witness :
  decode_loop (ext 5 (inr tt) (inr (fresh []))) (args "VHS") 5 2 false
    (fresh [GiveField; NoMoreFields]) default_int_handler
  = (Ret (at_field 1 []), default_int_handler,
     [EvReadfield; EvPut (Some (1, 1000)); EvReadfield; EvPut (Some (1, 1000))]).
Proof.
  refine (proj2 (snapshot_on_last_pass (ext 5 (inr tt) (inr (fresh [])))
                   (args "VHS") 5 0 (fresh [GiveField; NoMoreFields]) tt
                   (at_field 1 [NoMoreFields]) (at_field 1 [])
                   default_int_handler _ eq_refl _ eq_refl eq_refl) eq_refl);
    simpl; lia.
Defined.

End Scripted.

(** * More of the code *)

(** ** The options *)

Lemma supported_upper tf :
  tf ∈ supported_tape_formats -> str_upper tf = tf.
Proof.
  unfold supported_tape_formats. intros Hin.
  apply elem_of_union in Hin as [Hin|Hin];
    [apply elem_of_union in Hin as [Hin|Hin]|];
    apply elem_of_singleton in Hin; subst tf; reflexivity.
Qed.

Section Options.
Context {Loader Engine Field Json : Type}.
Context (ext : Externals Loader Engine Field Json).
Context (use_gui : bool) (args : Args).

Implicit Types (evs pre : list (event Json)) (vhsd : Engine) (h : handler).

(** X1. Whatever [get_rf_options] returns and whatever threshold was
    given on the command line, the [dod_threshold_p] handed to the decoder
    is one of the two defaults: the CXADC one when any of the four cxadc
    switches is set, the DdD one otherwise. *)
Theorem dod_threshold_p_is_a_default :
  rf_options_of ext args !! "dod_threshold_p" =
    Some (PyFloat (if cxadc args || cxadc3 args || cxadc_tenbit args
                      || cxadc3_tenbit args
                   then DEFAULT_THRESHOLD_P_CXADC ext
                   else DEFAULT_THRESHOLD_P_DDD ext)) /\
  kw_rf_options (decoder_kwargs ext use_gui args (select_system ext args))
    = rf_options_of ext args.
Proof.
  split; [|reflexivity]. unfold rf_options_of.
  rewrite !lookup_insert_ne by discriminate. apply lookup_insert_eq.
Qed.

(** X2. [main] adds its twelve keys to the options of [get_rf_options]
    and touches no other: the keys of the result are those twelve and the
    ones [get_rf_options] gave, and every key outside the twelve keeps the
    value [get_rf_options] gave it. *)
Theorem rf_options_keeps_other_keys :
  dom (rf_options_of ext args) = main_rf_keys ∪ dom (get_rf_options ext args) /\
  (forall key,
     key ∉ main_rf_keys ->
     rf_options_of ext args !! key = get_rf_options ext args !! key).
Proof.
  split.
  - unfold rf_options_of, main_rf_keys. rewrite !dom_insert_L.
    apply set_eq. intros key. rewrite !elem_of_union, !elem_of_singleton. tauto.
  - intros key Hkey. unfold rf_options_of.
    rewrite !lookup_insert_ne; [reflexivity|..];
      intros <-; apply Hkey; unfold main_rf_keys;
      rewrite !elem_of_union, !elem_of_singleton; tauto.
Qed.

End Options.

(** ** The whole of [main] *)

Section Whole.
Context {Loader Engine Field Json : Type}.
Context (ext : Externals Loader Engine Field Json).
Context (use_gui : bool) (args : Args).

Implicit Types (evs pre : list (event Json)) (vhsd : Engine) (h : handler).

Lemma position_positioned b system vhsd h :
  position ext args b system vhsd h =
    (Ret (positioned ext args b system vhsd), h, positioning args b system).
Proof.
  unfold position, positioned, positioning. run.
  destruct (start_fileloc args =? -1), (String.eqb system "NTSC" && negb (ntscj args));
    reflexivity.
Qed.

Lemma driver_calls_quiet evs :
  forallb driver_call evs = true -> signals evs = 0%nat /\ warnings evs = [].
Proof.
  induction evs as [|ev evs IH]; [split; reflexivity|].
  destruct ev; simpl; intros Hall; try discriminate; exact (IH Hall).
Qed.

Lemma warnings_app evs evs' : warnings (evs ++ evs') = warnings evs ++ warnings evs'.
Proof.
  induction evs as [|ev evs IH]; [reflexivity|].
  destruct ev; simpl; rewrite ?IH; reflexivity.
Qed.

Lemma snapshot_events_driver vhsd :
  forallb (driver_call (Json := Json)) (snapshot_events ext vhsd) = true.
Proof.
  unfold snapshot_events. destruct (snapshot_due _); reflexivity.
Qed.

(** From the start of the dump thread on, the driver only reads fields,
    enqueues, closes and writes output. *)
Lemma decode_loop_driver_calls frames fuel done vhsd h :
  forallb driver_call (events_of (decode_loop ext args frames fuel done vhsd h))
    = true.
Proof.
  revert done vhsd h. induction fuel as [|fuel IH]; intros done vhsd h.
  - simpl. destruct (negb done && _); reflexivity.
  - destruct (negb done && (fields_written ext vhsd <? frames * 2)) eqn:Hc.
    2:{ rewrite decode_loop_exit by exact Hc. reflexivity. }
    destruct (readfield ext vhsd) as [[[|err]|f] vhsd'] eqn:Hread.
    + rewrite (decode_loop_interrupt _ _ _ _ _ _ _ _ Hc Hread). reflexivity.
    + rewrite (decode_loop_failure _ _ _ _ _ _ _ _ _ Hc Hread). reflexivity.
    + rewrite (decode_loop_pass _ _ _ _ _ _ _ _ _ Hc Hread).
      cbn [events_of snd forallb driver_call andb].
      rewrite forallb_app, snapshot_events_driver. apply IH.
Qed.

Lemma decode_driver_calls b fuel vhsd h :
  forallb driver_call (events_of (decode ext args b fuel vhsd h)) = true.
Proof.
  rewrite decode_unfold.
  pose proof (decode_loop_driver_calls (req_frames b) fuel false vhsd h) as Hloop.
  destruct (decode_loop _ _ _ _ _ _ _) as [[[last|e|] h'] evs];
    cbn [result_of sigint_of events_of fst snd forallb driver_call andb] in *;
    try exact Hloop.
  rewrite forallb_app, Hloop. reflexivity.
Qed.

(** A loop cut off by its bound has made as many passes as the bound,
    with one call of [readfield] in each. *)
Lemma decode_loop_out_of_fuel frames fuel done vhsd h :
  result_of (decode_loop ext args frames fuel done vhsd h) = OutOfFuel ->
  reads (events_of (decode_loop ext args frames fuel done vhsd h)) = fuel.
Proof.
  revert done vhsd h. induction fuel as [|fuel IH]; intros done vhsd h.
  - simpl. destruct (negb done && _); [reflexivity|discriminate].
  - destruct (negb done && (fields_written ext vhsd <? frames * 2)) eqn:Hc.
    2:{ rewrite decode_loop_exit by exact Hc. discriminate. }
    destruct (readfield ext vhsd) as [[[|err]|f] vhsd'] eqn:Hread.
    + rewrite (decode_loop_interrupt _ _ _ _ _ _ _ _ Hc Hread). discriminate.
    + rewrite (decode_loop_failure _ _ _ _ _ _ _ _ _ Hc Hread). discriminate.
    + rewrite (decode_loop_pass _ _ _ _ _ _ _ _ _ Hc Hread).
      cbn [result_of events_of fst snd reads]. intros Hout.
      rewrite reads_app, (IH _ _ _ Hout).
      destruct (snapshot_events_counts ext vhsd') as (_ & _ & ->). reflexivity.
Qed.

(** A run that the loader ends. *)
Lemma main_loader_invalid fuel msg h :
  make_loader ext (filename (get_basics ext args)) (select_sample_freq ext args)
    = inl (ValueError msg) ->
  main ext use_gui args fuel h =
    (Raise (SystemExit 1), h,
     [EvMakeLoader (filename (get_basics ext args)) (select_sample_freq ext args);
      EvPrint Stdout [PExc (ValueError msg)]]).
Proof.
  intros Hl. unfold main. unfold mbind at 1, M_bind, m_bind.
  rewrite (load_samples_invalid ext _ _ _ _ Hl). reflexivity.
Qed.

Lemma main_loader_other fuel msg h :
  make_loader ext (filename (get_basics ext args)) (select_sample_freq ext args)
    = inl (RuntimeError msg) ->
  main ext use_gui args fuel h =
    (Raise (Exc (RuntimeError msg)), h,
     [EvMakeLoader (filename (get_basics ext args)) (select_sample_freq ext args)]).
Proof.
  intros Hl. unfold main. unfold mbind at 1, M_bind, m_bind.
  rewrite (load_samples_other ext _ _ _ _ Hl). reflexivity.
Qed.

(** A run that gets to the loop. *)
Lemma main_after_setup fuel loader vhsd h :
  make_loader ext (filename (get_basics ext args)) (select_sample_freq ext args)
    = inr loader ->
  VHSDecode ext (filename (get_basics ext args)) (outname (get_basics ext args))
    loader (decoder_kwargs ext use_gui args (select_system ext args)) = inr vhsd ->
  main ext use_gui args fuel h =
    let r := decode ext args (get_basics ext args) fuel
               (positioned ext args (get_basics ext args) (select_system ext args)
                  vhsd) h in
    (result_of r, sigint_of r, setup_events ext use_gui args h ++ events_of r).
Proof.
  intros Hl Hv. set (b := get_basics ext args) in *.
  unfold main. fold b. unfold mbind, M_bind, m_bind.
  rewrite (load_samples_loaded ext _ _ _ _ Hl).
  rewrite (build_decoder_returns ext use_gui args _ _ _ _ _ Hv).
  rewrite position_positioned.
  destruct (decode ext args b fuel _ h) as [[o h'] evs]. unfold setup_events. fold b.
  cbn [result_of sigint_of events_of fst snd app].
  rewrite <- !app_assoc. reflexivity.
Qed.

(** X5. When the loader and the constructor return, a run of [main] is
    the calls of the set-up, in their order (loader, mask, log file,
    warnings, plot, constructor, unmask, seek, black level), followed by
    the run of the decode loop on the decoder as the seek left it. *)
Theorem main_runs_decode fuel loader vhsd h :
  make_loader ext (filename (get_basics ext args)) (select_sample_freq ext args)
    = inr loader ->
  VHSDecode ext (filename (get_basics ext args)) (outname (get_basics ext args))
    loader (decoder_kwargs ext use_gui args (select_system ext args)) = inr vhsd ->
  let b := get_basics ext args in
  let r := decode ext args b fuel
             (positioned ext args b (select_system ext args) vhsd) h in
  main ext use_gui args fuel h =
    (result_of r, sigint_of r, setup_events ext use_gui args h ++ events_of r).
Proof.
  intros Hl Hv b r. unfold main. fold b. unfold mbind, M_bind, m_bind.
  rewrite (load_samples_loaded ext _ _ _ _ Hl).
  rewrite (build_decoder_returns ext use_gui args _ _ _ _ _ Hv).
  rewrite position_positioned. fold r.
  destruct r as [[o h'] evs]. unfold setup_events. fold b.
  cbn [result_of sigint_of events_of fst snd app].
  rewrite <- !app_assoc. reflexivity.
Qed.

(** X3. Only [ValueError] is caught around the loader: any other
    exception it raises leaves [main] as it is, with nothing printed, no
    [exit], and nothing done but the call of the loader. *)
Theorem loader_error_propagates fuel msg h :
  make_loader ext (filename (get_basics ext args)) (select_sample_freq ext args)
    = inl (RuntimeError msg) ->
  main ext use_gui args fuel h =
    (Raise (Exc (RuntimeError msg)), h,
     [EvMakeLoader (filename (get_basics ext args)) (select_sample_freq ext args)]).
Proof.
  intros Hl. unfold main. unfold mbind at 1, M_bind, m_bind.
  rewrite (load_samples_other ext _ _ _ _ Hl). reflexivity.
Qed.

(** A run that the constructor ends. *)
Lemma main_constructor_raises fuel loader err h :
  make_loader ext (filename (get_basics ext args)) (select_sample_freq ext args)
    = inr loader ->
  VHSDecode ext (filename (get_basics ext args)) (outname (get_basics ext args))
    loader (decoder_kwargs ext use_gui args (select_system ext args)) = inl err ->
  main ext use_gui args fuel h =
    (Raise (Exc err), SIG_IGN,
     EvMakeLoader (filename (get_basics ext args)) (select_sample_freq ext args)
     :: EvSignal SIG_IGN
     :: preparations use_gui args (get_basics ext args)
     ++ [EvVHSDecode (decoder_kwargs ext use_gui args (select_system ext args))]).
Proof.
  intros Hl Hv. unfold main. unfold mbind at 1 2, M_bind, m_bind.
  rewrite (load_samples_loaded ext _ _ _ _ Hl).
  rewrite (build_decoder_raises ext use_gui args _ _ _ _ _ Hv). reflexivity.
Qed.

Lemma preparations_reads b :
  reads (preparations (Json := Json) use_gui args b) = 0%nat.
Proof.
  unfold preparations.
  destruct (bool_decide _), (negb use_gui && dodod args),
    (debug_plot_request args); reflexivity.
Qed.

(** X4. [signal.signal] over a whole run.  A run that the loader ends
    never touches SIGINT.  A run that the constructor ends has masked it
    once and leaves it masked, with no dump thread started and nothing
    enqueued.  Every other run, however it leaves the loop and also while
    it is still in it, has called [signal.signal] twice, to mask and to
    restore, and has the handler it started with. *)
Theorem sigint_over_a_run fuel h :
  let b := get_basics ext args in
  let r := main ext use_gui args fuel h in
  match make_loader ext (filename b) (select_sample_freq ext args) with
  | inl _ => signals (events_of r) = 0%nat /\ sigint_of r = h
  | inr loader =>
      match VHSDecode ext (filename b) (outname b) loader
              (decoder_kwargs ext use_gui args (select_system ext args)) with
      | inl err =>
          result_of r = Raise (Exc err) /\
          signals (events_of r) = 1%nat /\ sigint_of r = SIG_IGN /\
          puts (events_of r) = [] /\ reads (events_of r) = 0%nat
      | inr _ =>
          signals (events_of r) = 2%nat /\ sigint_of r = h /\
          disposition h (events_of r) = h
      end
  end.
Proof.
  intros b r.
  destruct (make_loader ext (filename b) (select_sample_freq ext args))
    as [[msg|msg]|loader] eqn:Hl.
  - subst r. rewrite (main_loader_invalid fuel msg h Hl).
    split; reflexivity.
  - subst r. rewrite (main_loader_other fuel msg h Hl). split; reflexivity.
  - destruct (preparations_quiet (Json := Json) use_gui args b) as (Hpp & Hpc & Hps).
    destruct (VHSDecode ext (filename b) (outname b) loader
                (decoder_kwargs ext use_gui args (select_system ext args)))
      as [err|vhsd] eqn:Hv.
    + subst r. rewrite (main_constructor_raises fuel loader err h Hl Hv). fold b.
      cbn [result_of sigint_of events_of fst snd signals puts reads].
      rewrite signals_app, puts_app, reads_app, Hps, Hpp, preparations_reads.
      repeat split.
    + subst r. rewrite (main_after_setup fuel loader vhsd h Hl Hv).
      fold b. set (d := decode ext args b fuel _ h).
      destruct (decode_shape ext args b fuel
                  (positioned ext args b (select_system ext args) vhsd) h)
        as [Hsig _].
      fold d in Hsig.
      destruct (driver_calls_quiet _ (decode_driver_calls b fuel
                  (positioned ext args b (select_system ext args) vhsd) h))
        as [Hds _].
      fold d in Hds.
      assert (Hsetup : signals (setup_events ext use_gui args h) = 2%nat).
      { unfold setup_events. fold b. cbn [signals]. rewrite !signals_app, Hps.
        unfold positioning.
        destruct (start_fileloc args =? -1),
          (String.eqb (select_system ext args) "NTSC" && negb (ntscj args));
          reflexivity. }
      assert (Hdisp : forall evs evs' h0,
                 signals evs' = 0%nat ->
                 disposition h0 (evs ++ evs') = disposition h0 evs).
      { intros evs evs' h0 Hq. revert h0.
        induction evs as [|ev evs IH]; intros h0.
        - apply disposition_quiet. exact Hq.
        - destruct ev; simpl; apply IH. }
      cbn [result_of sigint_of events_of fst snd].
      rewrite signals_app, Hsetup, Hds, Hsig.
      split; [reflexivity|]. split; [reflexivity|].
      rewrite (Hdisp _ _ _ Hds). unfold setup_events. fold b.
      cbn [disposition]. rewrite app_assoc.
      assert (Hpos : signals (positioning (Json := Json) args b
                                (select_system ext args)) = 0%nat).
      { unfold positioning.
        destruct (start_fileloc args =? -1),
          (String.eqb (select_system ext args) "NTSC" && negb (ntscj args));
          reflexivity. }
      rewrite (Hdisp _ _ _ Hpos).
      clear -Hps. generalize SIG_IGN.
      induction (preparations (Json := Json) use_gui args b) as [|ev evs IH];
        intros h0; [reflexivity|].
      destruct ev; simpl in *; try (apply IH; exact Hps). discriminate.
Qed.

Lemma preparations_warnings b :
  effective_tape_format use_gui args ∈ supported_tape_formats ->
  warnings (preparations (Json := Json) use_gui args b)
    = if negb use_gui && dodod args then [dodod_warning] else [].
Proof.
  intros Hin. unfold preparations. rewrite bool_decide_eq_true_2 by exact Hin.
  destruct (negb use_gui && dodod args), (debug_plot_request args); reflexivity.
Qed.

(** The format [main] settles on when the parsed one is supported, or
    [-U] is given outside the GUI. *)
Lemma effective_supported :
  tape_format args ∈ supported_tape_formats \/
  (use_gui = false /\ umatic args = true) ->
  effective_tape_format use_gui args ∈ supported_tape_formats.
Proof.
  intros Hok. unfold effective_tape_format. destruct Hok as [Hin|[-> ->]].
  - destruct (negb use_gui && umatic args).
    + apply (bool_decide_eq_true_1 _). reflexivity.
    + rewrite (supported_upper _ Hin). exact Hin.
  - apply (bool_decide_eq_true_1 _). reflexivity.
Qed.

(** The warnings of a run whose tape format is a supported one. *)
Lemma main_warnings_supported fuel h :
  effective_tape_format use_gui args ∈ supported_tape_formats ->
  warnings (events_of (main ext use_gui args fuel h))
    = match make_loader ext (filename (get_basics ext args))
              (select_sample_freq ext args) with
      | inl _ => []
      | inr _ => if negb use_gui && dodod args then [dodod_warning] else []
      end.
Proof.
  intros Hin. set (b := get_basics ext args).
  destruct (make_loader ext (filename b) (select_sample_freq ext args))
    as [[msg|msg]|loader] eqn:Hl.
  - rewrite (main_loader_invalid fuel msg h Hl). reflexivity.
  - rewrite (main_loader_other fuel msg h Hl). reflexivity.
  - destruct (VHSDecode ext (filename b) (outname b) loader
                (decoder_kwargs ext use_gui args (select_system ext args)))
      as [err|vhsd] eqn:Hv.
    + rewrite (main_constructor_raises fuel loader err h Hl Hv). fold b.
      cbn [events_of snd warnings]. rewrite warnings_app, preparations_warnings by exact Hin.
      apply app_nil_r.
    + rewrite (main_after_setup fuel loader vhsd h Hl Hv). fold b.
      cbn [events_of snd]. rewrite warnings_app.
      destruct (driver_calls_quiet _ (decode_driver_calls b fuel
                  (positioned ext args b (select_system ext args) vhsd) h))
        as [_ ->].
      unfold setup_events. fold b. cbn [warnings].
      rewrite !warnings_app, preparations_warnings by exact Hin.
      unfold positioning.
      destruct (negb use_gui && dodod args), (start_fileloc args =? -1),
        (String.eqb (select_system ext args) "NTSC" && negb (ntscj args));
        reflexivity.
Qed.

(** X6. When [args.tape_format] is a supported format, or [-U] is given
    outside the GUI, the format [main] settles on is a supported one, and
    no run logs a warning about the tape format: a run that gets past
    the loader logs the warning about [--doDOD] if that switch is set
    outside the GUI, and no other; a run the loader ends logs none. *)
Theorem supported_tape_format_no_warning fuel h :
  tape_format args ∈ supported_tape_formats \/
  (use_gui = false /\ umatic args = true) ->
  effective_tape_format use_gui args ∈ supported_tape_formats /\
  warnings (events_of (main ext use_gui args fuel h))
    = match make_loader ext (filename (get_basics ext args))
              (select_sample_freq ext args) with
      | inl _ => []
      | inr _ => if negb use_gui && dodod args then [dodod_warning] else []
      end.
Proof.
  intros Hok. pose proof (effective_supported Hok) as Hin.
  split; [exact Hin|]. apply main_warnings_supported. exact Hin.
Qed.

End Whole.

(** ** More on the decode loop *)

Section MoreLoop.
Context {Loader Engine Field Json : Type}.
Context (ext : Externals Loader Engine Field Json).
Context (args : Args).

Implicit Types (evs pre : list (event Json)) (vhsd : Engine) (h : handler).

(** X8. The loop has no guard against a decoder that makes no progress:
    if every call of [readfield] hands back a field and the count of
    fields written never grows, a loop entered below its target never
    ends.  Whatever the bound on the passes, the run is cut off by it,
    with one call of [readfield] per pass and nothing of [cleanup]. *)
Theorem stalled_decoder_never_ends frames :
  (forall e, exists f e',
      readfield ext e = (inr (Some f), e') /\
      fields_written ext e' <= fields_written ext e) ->
  forall fuel vhsd h b,
    fields_written ext vhsd < frames * 2 ->
    req_frames b = frames ->
    let r := decode ext args b fuel vhsd h in
    result_of r = OutOfFuel /\
    reads (events_of r) = fuel /\
    sentinels (events_of r) = 0%nat /\ closes (events_of r) = 0%nat.
Proof.
  intros Hstall fuel vhsd h b Hlt <- r.
  assert (Hloop : forall fuel vhsd,
             fields_written ext vhsd < req_frames b * 2 ->
             result_of (decode_loop ext args (req_frames b) fuel false vhsd h)
             = OutOfFuel).
  { clear fuel vhsd Hlt r. induction fuel as [|fuel IH]; intros vhsd Hlt.
    - rewrite decode_loop_no_fuel; [reflexivity|].
      simpl. apply Z.ltb_lt. exact Hlt.
    - destruct (Hstall vhsd) as (f & vhsd' & Hread & Hfw).
      rewrite (decode_loop_pass ext args _ _ _ _ (Some f) vhsd' h);
        [|simpl; apply Z.ltb_lt; exact Hlt|exact Hread].
      cbn [result_of fst]. apply IH. lia. }
  pose proof (finalization_exactly_once ext args b fuel vhsd h) as Hfin.
  pose proof (decode_unfold ext args b fuel vhsd h) as Hun.
  pose proof (decode_loop_out_of_fuel ext args (req_frames b) fuel false vhsd h
                (Hloop fuel vhsd Hlt)) as Hreads.
  specialize (Hloop fuel vhsd Hlt). fold r in Hfin, Hun. cbv zeta in Hfin.
  destruct (decode_loop ext args (req_frames b) fuel false vhsd h)
    as [[o h'] levs]. cbn [result_of events_of fst snd] in *. subst o.
  cbn [result_of sigint_of events_of fst snd] in Hun. rewrite Hun in *.
  cbn [result_of events_of fst snd reads] in *.
  destruct Hfin as [Hc Hs]. repeat split; assumption.
Qed.

(** X9. If every field that [readfield] hands back raises the count of
    fields written by at least one, a loop entered with [w] fields
    written, with [N] frames asked for, calls [readfield] at most
    [2N - w] times, whatever else the decoder does (report the end, fail,
    be interrupted); and a bound of [2N - w] passes is never what stops
    it. *)
Theorem readfield_calls_bounded frames :
  (forall e f e',
      readfield ext e = (inr (Some f), e') ->
      fields_written ext e + 1 <= fields_written ext e') ->
  forall fuel done vhsd h,
    let r := decode_loop ext args frames fuel done vhsd h in
    (reads (events_of r) <= Z.to_nat (frames * 2 - fields_written ext vhsd))%nat /\
    ((Z.to_nat (frames * 2 - fields_written ext vhsd) <= fuel)%nat ->
     result_of r <> OutOfFuel).
Proof.
  intros Hgrow fuel. induction fuel as [|fuel IH]; intros done vhsd h r; subst r.
  - destruct (negb done && (fields_written ext vhsd <? frames * 2)) eqn:Hc.
    + rewrite decode_loop_no_fuel by exact Hc. simpl. split; [lia|].
      apply andb_true_iff in Hc as [_ Hc]. apply Z.ltb_lt in Hc. lia.
    + rewrite decode_loop_exit by exact Hc. simpl. split; [lia|discriminate].
  - destruct (negb done && (fields_written ext vhsd <? frames * 2)) eqn:Hc.
    2:{ rewrite decode_loop_exit by exact Hc. simpl. split; [lia|discriminate]. }
    assert (Hlt : fields_written ext vhsd < frames * 2).
    { apply andb_true_iff in Hc as [_ Hc]. apply Z.ltb_lt in Hc. exact Hc. }
    destruct (readfield ext vhsd) as [[[|err]|[f|]] vhsd'] eqn:Hread.
    + rewrite (decode_loop_interrupt _ _ _ _ _ _ _ _ Hc Hread).
      simpl. split; [lia|discriminate].
    + rewrite (decode_loop_failure _ _ _ _ _ _ _ _ _ Hc Hread).
      simpl. split; [lia|discriminate].
    + rewrite (decode_loop_pass _ _ _ _ _ _ _ _ _ Hc Hread).
      cbn [result_of events_of fst snd reads]. rewrite reads_app.
      destruct (snapshot_events_counts ext vhsd') as (_ & _ & ->).
      specialize (Hgrow _ _ _ Hread).
      destruct (IH done vhsd' h) as [Hreads Hfuel]. split; [simpl; lia|].
      intros Hen. apply Hfuel. lia.
    + rewrite (decode_loop_pass _ _ _ _ _ _ _ _ _ Hc Hread).
      rewrite decode_loop_exit by reflexivity.
      cbn [result_of events_of fst snd reads]. rewrite reads_app.
      destruct (snapshot_events_counts ext vhsd') as (_ & _ & ->).
      simpl. split; [lia|discriminate].
Qed.

Lemma cadence_count_step n :
  0 <= n ->
  cadence_count (n + 1) = cadence_count n + (if snapshot_due (n + 1) then 1 else 0).
Proof.
  intros Hn. unfold cadence_count, snapshot_due.
  pose proof (Z.div_mod (n + 1) 500 ltac:(lia)) as Hdm.
  pose proof (Z.mod_pos_bound (n + 1) 500 ltac:(lia)) as Hmod.
  assert (Hdiv : (n + 1) / 500 = n / 500 + (if (n + 1) mod 500 =? 0 then 1 else 0)).
  { destruct (Z.eqb_spec ((n + 1) mod 500) 0) as [H0|Hne].
    - assert ((n + 1) / 500 - 1 = n / 500) by (apply Z.div_unique with 499; lia).
      lia.
    - assert ((n + 1) / 500 = n / 500)
        by (apply Z.div_unique with ((n + 1) mod 500 - 1); lia).
      lia. }
  rewrite Hdiv.
  destruct (Z.ltb_spec (n + 1) 100) as [Hlt|Hge];
    destruct (Z.eqb_spec ((n + 1) mod 500) 0) as [H0|Hne]; simpl; lia.
Qed.

Lemma cadence_count_mono n m : 0 <= n <= m -> cadence_count n <= cadence_count m.
Proof.
  intros Hnm. unfold cadence_count.
  pose proof (Z.div_le_mono n m 500 ltac:(lia) ltac:(lia)). lia.
Qed.

(** X10. On a decoder that hands back a field on every call and counts
    it, a loop entered with [w] fields written, [0 <= w <= 2N], enqueues
    one snapshot for each count in [w+1 .. 2N] that is below 100 or a
    multiple of 500 and no other: [min(2N, 99) + 2N / 500] snapshots when
    it starts from 0. *)
Theorem snapshots_of_a_run frames :
  (forall e, exists f e',
      readfield ext e = (inr (Some f), e') /\
      fields_written ext e' = fields_written ext e + 1) ->
  forall fuel vhsd h,
    0 <= fields_written ext vhsd <= frames * 2 ->
    (Z.to_nat (frames * 2 - fields_written ext vhsd) <= fuel)%nat ->
    Z.of_nat (length (puts (events_of
                (decode_loop ext args frames fuel false vhsd h))))
    = cadence_count (frames * 2) - cadence_count (fields_written ext vhsd).
Proof.
  intros Hgood fuel. induction fuel as [|fuel IH]; intros vhsd h Hw Hfuel.
  - rewrite decode_loop_exit; [|simpl; apply Z.ltb_ge; lia].
    assert (fields_written ext vhsd = frames * 2) as -> by lia. simpl. lia.
  - destruct (Z.ltb_spec (fields_written ext vhsd) (frames * 2)) as [Hlt|Hge].
    + destruct (Hgood vhsd) as (f & vhsd' & Hread & Hfw).
      rewrite (decode_loop_pass ext args _ _ _ _ (Some f) vhsd' h);
        [|simpl; apply Z.ltb_lt; exact Hlt|exact Hread].
      cbn [events_of snd puts]. rewrite puts_app, length_app, Nat2Z.inj_add.
      rewrite (IH vhsd' h) by lia. rewrite Hfw.
      rewrite (cadence_count_step (fields_written ext vhsd)) by lia.
      unfold snapshot_events. rewrite Hfw.
      destruct (snapshot_due (fields_written ext vhsd + 1)); simpl; lia.
    + rewrite decode_loop_exit; [|simpl; apply Z.ltb_ge; lia].
      assert (fields_written ext vhsd = frames * 2) as -> by lia. simpl. lia.
Qed.

(** The last of [k + 1] passes leaves its snapshot, if one is due, as
    the last call. *)
Lemma passes_last frames k vhsd0 vhsd pre :
  passes ext frames (S k) vhsd0 = Some (vhsd, pre) ->
  exists pre', pre = pre' ++ EvReadfield :: snapshot_events ext vhsd.
Proof.
  revert vhsd0 pre. induction k as [|k IH]; intros vhsd0 pre Hp.
  - simpl in Hp.
    destruct (fields_written ext vhsd0 <? frames * 2); [|discriminate].
    destruct (readfield ext vhsd0) as [[r|[f|]] vhsd']; try discriminate.
    injection Hp as <- <-. exists []. rewrite app_nil_r. reflexivity.
  - change (passes ext frames (S (S k)) vhsd0) with
      (if fields_written ext vhsd0 <? frames * 2 then
         match readfield ext vhsd0 with
         | (inr (Some _), vhsd') =>
             match passes ext frames (S k) vhsd' with
             | Some (last, evs) =>
                 Some (last, EvReadfield :: snapshot_events ext vhsd' ++ evs)
             | None => None
             end
         | _ => None
         end
       else None) in Hp.
    destruct (fields_written ext vhsd0 <? frames * 2); [|discriminate].
    destruct (readfield ext vhsd0) as [[r|[f|]] vhsd']; try discriminate.
    destruct (passes ext frames (S k) vhsd') as [[l evs]|] eqn:Hk; [|discriminate].
    injection Hp as <- <-. destruct (IH _ _ Hk) as [pre' ->].
    exists (EvReadfield :: snapshot_events ext vhsd' ++ pre').
    simpl. rewrite <- app_assoc. reflexivity.
Qed.

(** X11. When the loop ends on its target right after a pass that
    enqueued a snapshot, [cleanup] enqueues the snapshot of the same
    decoder state once more: the queue ends with that snapshot twice and
    then the stop message. *)
Theorem final_snapshot_repeated b fuel k vhsd0 vhsd pre h :
  passes ext (req_frames b) (S k) vhsd0 = Some (vhsd, pre) ->
  (S k <= fuel)%nat ->
  req_frames b * 2 <= fields_written ext vhsd ->
  snapshot_due (fields_written ext vhsd) = true ->
  exists before,
    puts (events_of (decode ext args b fuel vhsd0 h))
    = before ++ [Some (build_json ext vhsd); Some (build_json ext vhsd); None].
Proof.
  intros Hp Hk Hdone Hdue.
  assert (Hfuel : exists fuel', fuel = (S k + fuel')%nat).
  { exists (fuel - S k)%nat. lia. }
  destruct Hfuel as [fuel' ->].
  destruct (passes_last _ _ _ _ _ Hp) as [pre' Hpre].
  rewrite decode_unfold, (decode_loop_passes ext args _ _ _ _ _ _ _ Hp).
  rewrite decode_loop_exit; [|simpl; apply Z.ltb_ge; lia].
  cbn [result_of sigint_of events_of fst snd puts]. rewrite app_nil_r, Hpre.
  unfold snapshot_events. rewrite Hdue.
  exists (puts pre'). rewrite puts_app, puts_app. simpl.
  rewrite <- app_assoc. reflexivity.
Qed.

End MoreLoop.

(** ** More runs of the scripted decoders *)

Section Probes.
Import Fake.

(** X1 behind a [get_rf_options] that sets a threshold of its own. *)
Lemma dod_threshold_p_is_a_default_witness :
  Probe.stock_options !! "dod_threshold_p" = Some (PyFloat 9%float) /\
  rf_options_of Probe.ext (args "VHS") !! "dod_threshold_p"
    = Some (PyFloat 0.125%float).
Proof.
  split; [reflexivity|].
  exact (proj1 (dod_threshold_p_is_a_default Probe.ext false (args "VHS"))).
Defined.

(** X2 on a key that only [get_rf_options] knows. *)
Lemma rf_options_keeps_other_keys_witness :
  ("chroma_trap" ∉ main_rf_keys) /\
  rf_options_of Probe.ext (args "VHS") !! "chroma_trap" = Some (PyBool true).
Proof.
  assert (Hkey : "chroma_trap" ∉ main_rf_keys).
  { apply (bool_decide_eq_false_1 _). reflexivity. }
  split; [exact Hkey|].
  rewrite (proj2 (rf_options_keeps_other_keys Probe.ext (args "VHS")) _ Hkey).
  reflexivity.
Defined.

(** X3 on a loader that does not find the file. *)
Lemma loader_error_propagates_witness :
  main (ext 1 (inl (RuntimeError "No such file")) (inr (fresh [GiveField])))
    false (args "VHS") 4 default_int_handler
  = (Raise (Exc (RuntimeError "No such file")), default_int_handler,
     [EvMakeLoader "capture.ldf" (PyInt 40)]).
Proof.
  exact (loader_error_propagates
           (ext 1 (inl (RuntimeError "No such file")) (inr (fresh [GiveField])))
           false (args "VHS") 4 "No such file" default_int_handler eq_refl).
Defined.

(** X5 on the run over two fields. *)
Lemma main_runs_decode_witness :
  main (ext 1 (inr tt) (inr (fresh [GiveField; GiveField]))) false (args "VHS")
    5 default_int_handler
  = (Raise (SystemExit 0), default_int_handler,
     setup_events (ext 1 (inr tt) (inr (fresh [GiveField; GiveField]))) false
       (args "VHS") default_int_handler
     ++ two_fields).
Proof.
  rewrite (main_runs_decode (ext 1 (inr tt) (inr (fresh [GiveField; GiveField])))
             false (args "VHS") 5 tt (fresh [GiveField; GiveField])
             default_int_handler eq_refl eq_refl).
  reflexivity.
Defined.

(** X6 on the tape format [SVHS]. *)
Lemma supported_tape_format_no_warning_witness :
  ("SVHS" ∈ supported_tape_formats) /\
  warnings (events_of (main (ext 1 (inr tt) (inr (fresh [GiveField]))) false
                         (args "SVHS") 4 default_int_handler)) = [].
Proof.
  assert (Hin : tape_format (args "SVHS") ∈ supported_tape_formats).
  { apply (bool_decide_eq_true_1 _). reflexivity. }
  split; [exact Hin|].
  exact (proj2 (supported_tape_format_no_warning
                  (ext 1 (inr tt) (inr (fresh [GiveField]))) false (args "SVHS")
                  4 default_int_handler (or_introl Hin))).
Defined.

(** X8 on the decoder that never counts a field, two frames asked for:
    seven passes allowed, seven made, and the loop still running. *)
Lemma stalled_decoder_never_ends_witness :
  result_of (decode Probe.ext (args "VHS") (run_basics 2) 7 0 default_int_handler)
    = OutOfFuel /\
  reads (events_of (decode Probe.ext (args "VHS") (run_basics 2) 7 0
                      default_int_handler)) = 7%nat.
Proof.
  destruct (stalled_decoder_never_ends Probe.ext (args "VHS") 2) with
    (fuel := 7%nat) (vhsd := 0) (h := default_int_handler) (b := run_basics 2)
    as (Hout & Hreads & _).
  - intros e. exists tt, (e + 1). split; [reflexivity|simpl; lia].
  - simpl. lia.
  - reflexivity.
  - split; [exact Hout|exact Hreads].
Defined.

Lemma fake_readfield_counts e f e' :
  fake_readfield e = (inr (Some f), e') -> written e + 1 <= written e'.
Proof.
  unfold fake_readfield. destruct (script e) as [|[| | |msg] rest];
    intros Hread; try discriminate.
  injection Hread as _ <-. simpl. lia.
Qed.

(** X9 on a decoder interrupted in its third call, five frames asked
    for: at most ten calls. *)
Lemma readfield_calls_bounded_witness :
  (reads (events_of (decode_loop (ext 5 (inr tt) (inr (fresh []))) (args "VHS")
                       5 10 false (fresh [GiveField; GiveField; Interrupted])
                       default_int_handler)) <= 10)%nat /\
  result_of (decode_loop (ext 5 (inr tt) (inr (fresh []))) (args "VHS")
               5 10 false (fresh [GiveField; GiveField; Interrupted])
               default_int_handler) <> OutOfFuel.
Proof.
  destruct (readfield_calls_bounded (ext 5 (inr tt) (inr (fresh []))) (args "VHS")
              5 fake_readfield_counts 10 false
              (fresh [GiveField; GiveField; Interrupted]) default_int_handler)
    as [Hreads Hfuel].
  split; [exact Hreads|]. apply Hfuel. simpl. lia.
Defined.

(** X10 on the decoder that never runs out, three hundred frames asked
    for: a hundred snapshots for six hundred fields. *)
Lemma snapshots_of_a_run_witness :
  Z.of_nat (length (puts (events_of
              (decode_loop (endless 300) (args "VHS") 300 600 false 0
                 default_int_handler)))) = 100.
Proof.
  refine (snapshots_of_a_run (endless 300) (args "VHS") 300 _ 600 0
            default_int_handler _ _).
  - intros e. exists tt, (e + 1). split; reflexivity.
  - simpl. lia.
  - simpl. lia.
Defined.

(** X11 on the run over two fields. *)
Lemma final_snapshot_repeated_witness :
  exists before,
    puts two_fields = before ++ [Some (2, 2000); Some (2, 2000); None].
Proof.
  refine (final_snapshot_repeated (ext 1 (inr tt) (inr (fresh [GiveField; GiveField])))
            (args "VHS") (run_basics 1) 5 1 (fresh [GiveField; GiveField])
            (at_field 2 []) [EvReadfield; EvPut (Some (1, 1000));
                             EvReadfield; EvPut (Some (2, 2000))]
            default_int_handler eq_refl _ _ eq_refl); simpl; lia.
Defined.

End Probes.

(** ** Interrupts in the loop *)

Section Interrupted.
Context {Loader Engine Field Json : Type}.
Context (ext : Externals Loader Engine Field Json).
Context (args : Args).

Implicit Types (evs pre : list (event Json)) (vhsd : Engine) (h : handler).









End Interrupted.

(** ** The tape format from the command line *)

Lemma supported_ascii tf :
  tf ∈ supported_tape_formats -> ascii_only tf = true.
Proof.
  unfold supported_tape_formats. intros Hin.
  apply elem_of_union in Hin as [Hin|Hin];
    [apply elem_of_union in Hin as [Hin|Hin]|];
    apply elem_of_singleton in Hin; subst tf; reflexivity.
Qed.

Lemma unsupported_is_not_dodod tf : unsupported_warning tf <> dodod_warning.
Proof. unfold unsupported_warning, dodod_warning. simpl. discriminate. Qed.

Section Parsed.
Context {Loader Engine Field Json : Type}.
Context (ext : Externals Loader Engine Field Json).
Context (upper : string -> string).

Implicit Types (evs : list (event Json)) (h : handler).

(** What the parser lets through is a supported format. *)
Lemma parse_tape_format_some given tf :
  (forall s, ascii_only s = true -> upper s = str_upper s) ->
  parse_tape_format upper given = Some tf ->
  tf ∈ supported_tape_formats /\
  (given = None /\ tf = "VHS" \/ exists word, given = Some word /\ tf = upper word).
Proof.
  intros Hup Hparse. destruct given as [word|]; simpl in Hparse.
  - destruct (bool_decide (upper word ∈ supported_tape_formats)) eqn:Hin;
      [|discriminate].
    injection Hparse as <-. apply bool_decide_eq_true_1 in Hin.
    split; [exact Hin|]. right. exists word. auto.
  - injection Hparse as <-. rewrite (Hup "VHS" eq_refl).
    split; [apply (bool_decide_eq_true_1 _); reflexivity|]. left. auto.
Qed.

(** C9, as the code has it.  A tape format given on the command line
    whose upper case is not one of the supported formats is refused by
    the parser: the process ends with status 2 and nothing of [main]
    from line 175 on runs, so no warning is logged and no decoder is
    built.  What the parser lets through is a supported format, on which
    the [upper] of line 215 changes nothing; so the format [main] settles
    on is a supported one, the constructor gets it as it is (or [UMATIC]
    under [-U] outside the GUI), and the only warning a run can log is
    the one about [--doDOD]: the warning of lines 216-217 is logged in no
    run. *)
Theorem unsupported_tape_format_refused use_gui given others fuel h :
  (forall s, ascii_only s = true -> upper s = str_upper s) ->
  let r := main_from_command_line ext upper use_gui given others fuel h in
  (forall word,
     given = Some word -> upper word ∉ supported_tape_formats ->
     r = (Raise (SystemExit 2), h, [])) /\
  (parse_tape_format upper given = None ->
   exists word, given = Some word /\ upper word ∉ supported_tape_formats) /\
  (forall tf,
     parse_tape_format upper given = Some tf ->
     let a := with_tape_format tf others in
     tf ∈ supported_tape_formats /\
     (given = None /\ tf = "VHS" \/ exists word, given = Some word /\ tf = upper word) /\
     upper (tape_format a) = tf /\ str_upper (tape_format a) = tf /\
     r = main ext use_gui a fuel h /\
     effective_tape_format use_gui a ∈ supported_tape_formats /\
     kw_tape_format (decoder_kwargs ext use_gui a (select_system ext a))
       = (if negb use_gui && umatic others then "UMATIC" else tf) /\
     warnings (events_of r)
       = match make_loader ext (filename (get_basics ext a))
                 (select_sample_freq ext a) with
         | inl _ => []
         | inr _ => if negb use_gui && dodod others then [dodod_warning] else []
         end /\
     forall tape, unsupported_warning tape ∉ warnings (events_of r)).
Proof.
  intros Hup r. split; [|split].
  - intros word -> Hno. subst r. unfold main_from_command_line, parse_tape_format.
    rewrite bool_decide_eq_false_2 by exact Hno. reflexivity.
  - intros Hnone. destruct given as [word|]; simpl in Hnone; [|discriminate].
    destruct (bool_decide (upper word ∈ supported_tape_formats)) eqn:Hin;
      [discriminate|].
    apply bool_decide_eq_false_1 in Hin. exists word. auto.
  - intros tf Hparse a.
    destruct (parse_tape_format_some given tf Hup Hparse) as [Hin Hfrom].
    assert (Hstr : str_upper tf = tf) by exact (supported_upper tf Hin).
    assert (Hmain : r = main ext use_gui a fuel h).
    { subst r. unfold main_from_command_line. rewrite Hparse. reflexivity. }
    assert (Heff : effective_tape_format use_gui a ∈ supported_tape_formats).
    { apply effective_supported. left. exact Hin. }
    assert (Hwarn : warnings (events_of r)
              = match make_loader ext (filename (get_basics ext a))
                        (select_sample_freq ext a) with
                | inl _ => []
                | inr _ => if negb use_gui && dodod others then [dodod_warning] else []
                end).
    { rewrite Hmain. exact (main_warnings_supported ext use_gui a fuel h Heff). }
    split; [exact Hin|]. split; [exact Hfrom|].
    split; [cbn [a with_tape_format tape_format];
            rewrite (Hup tf (supported_ascii tf Hin)); exact Hstr|].
    split; [exact Hstr|]. split; [exact Hmain|]. split; [exact Heff|].
    split.
    { cbn [decoder_kwargs kw_tape_format]. unfold effective_tape_format.
      cbn [a with_tape_format umatic tape_format].
      destruct (negb use_gui && umatic others); [reflexivity|exact Hstr]. }
    split; [exact Hwarn|].
    intros tape Hin'. rewrite Hwarn in Hin'.
    destruct (make_loader ext (filename (get_basics ext a)) (select_sample_freq ext a));
      [apply elem_of_nil in Hin'; exact Hin'|].
    destruct (negb use_gui && dodod others);
      [|apply elem_of_nil in Hin'; exact Hin'].
    apply list_elem_of_singleton in Hin'.
    exact (unsupported_is_not_dodod tape Hin').
Qed.

End Parsed.

(** ** Runs under interrupts and from the command line *)

Section Revised.
Import Fake.



Lemma unicode_upper_ascii s :
  ascii_only s = true -> Unicode.upper s = str_upper s.
Proof.
  induction s as [|c tail IH]; [reflexivity|].
  intros Hasc. simpl in Hasc. apply andb_true_iff in Hasc as [Hc Htail].
  apply Nat.ltb_lt in Hc. specialize (IH Htail).
  destruct tail as [|c' rest].
  - reflexivity.
  - cbn [Unicode.upper]. cbn [Unicode.upper] in IH.
    destruct (Nat.eqb_spec (Ascii.nat_of_ascii c) 197) as [H197|_]; [lia|].
    cbn [andb]. rewrite IH. reflexivity.
Qed.

(** C9 on the word [svhs] written with a long s, which only an
    upper-casing that knows Unicode turns into [SVHS]: the parser lets it
    through, and the run logs no warning. *)
Lemma unsupported_tape_format_refused_witness :
  parse_tape_format Unicode.upper (Some (Unicode.long_s "vhs")) = Some "SVHS" /\
  main_from_command_line (ext 1 (inr tt) (inr (fresh [GiveField]))) Unicode.upper
    false (Some (Unicode.long_s "vhs")) (args "VHS") 4 default_int_handler
  = main (ext 1 (inr tt) (inr (fresh [GiveField]))) false (args "SVHS") 4
      default_int_handler /\
  warnings (events_of
    (main_from_command_line (ext 1 (inr tt) (inr (fresh [GiveField])))
       Unicode.upper false (Some (Unicode.long_s "vhs")) (args "VHS") 4
       default_int_handler)) = [].
Proof.
  assert (Hparse : parse_tape_format Unicode.upper (Some (Unicode.long_s "vhs"))
                   = Some "SVHS").
  { reflexivity. }
  split; [exact Hparse|].
  destruct (proj2 (proj2 (unsupported_tape_format_refused
                            (ext 1 (inr tt) (inr (fresh [GiveField])))
                            Unicode.upper false (Some (Unicode.long_s "vhs"))
                            (args "VHS") 4 default_int_handler unicode_upper_ascii))
              "SVHS" Hparse)
    as (_ & _ & _ & _ & Hmain & _ & _ & Hwarn & _).
  split; [exact Hmain|exact Hwarn].
Defined.

(** C9 as the claim has it fails on the tape format [betamax]: the
    parser refuses it, and the run is over with status 2 before any
    warning is logged or any decoder built. *)
Lemma unsupported_tape_format_counterexample :
  Unicode.upper "betamax" = "BETAMAX" /\
  bool_decide ("BETAMAX" ∈ supported_tape_formats) = false /\
  main_from_command_line (ext 1 (inr tt) (inr (fresh [GiveField]))) Unicode.upper
    false (Some "betamax") (args "VHS") 4 default_int_handler
  = (Raise (SystemExit 2), default_int_handler, []).
Proof. repeat split. Qed.

End Revised.
